(** * openbadge-analysis: preprocessing/metadata.py

    A shallow embedding of the three metadata pipelines
    ([id_to_member_mapping], [voltages], [sample_counts]) and of the helper
    [_id_to_member_mapping_fill_gaps], with the properties of the
    specification stated and proved (or refuted) over it.

    Modelling conventions.
    - The input [fileobject] is the list of its lines after [json.loads];
      a decoded line is a [json] value.  Python dictionaries are finite maps.
    - Python exceptions are an error monad, [result]; the generator
      [readfile] is consumed whole by [pd.DataFrame], so the first line that
      raises aborts the run.
    - A number of a decoded line is the rational its numeral denotes ([Qc]).
      The voltage column of a frame holds binary64 numbers, and its means are
      computed in binary64 ([PrimFloat]).
    - A datetime column is what pandas stores: instants counted in
      nanoseconds from the epoch in UTC, within the range of a 64-bit
      integer, and one time zone for the column.  An instant is kept as the
      rational its timestamp denotes; a timestamp reaches pandas as a
      binary64 number and is rounded to whole nanoseconds, so the model has
      the instant of the code for timestamps that binary64 holds exactly and
      that are whole numbers of nanoseconds, as whole seconds are.
    - Time bins are counted from the local midnight of the first day of the
      data they group, as [pd.TimeGrouper] and [resample] count them.  The
      model counts in elapsed time; on a day on which the clock of the zone
      is moved pandas may count in wall-clock time, which is not followed.
    - Code the module imports but that is not part of it (the repository's
      [mac_address_to_id], Python's rendering of non-string values, the zone
      database) is the interface [Env]. *)

From Stdlib Require Import QArith Qcanon Qround Ascii String.
From Stdlib Require Import Floats.PrimFloat Floats.FloatOps Numbers.Cyclic.Int63.Uint63.
From stdpp Require Import base tactics numbers strings option gmap sorting lexico list.

Set Warnings "-register-all,-inexact-float".
Local Open Scope Z_scope.

(** ** Python values and exceptions *)

Inductive json : Type :=
  | JNull
  | JBool (b : bool)
  | JNum (q : Qc)
  | JStr (s : string)
  | JArr (items : list json)
  | JObj (fields : gmap string json).

Inductive exn : Type :=
  | KeyError (key : string)
  | TypeError
  | ValueError
  | UnknownTimeZoneError (zone : string)
  | OutOfBoundsDatetime
  | Exception (msg : string).

Inductive result (A : Type) : Type :=
  | Ok (a : A)
  | Raise (e : exn).
Global Arguments Ok {A} a.
Global Arguments Raise {A} e.

Global Instance result_ret : MRet result := λ A a, Ok a.
Global Instance result_bind : MBind result := λ A B f r,
  match r with Ok a => f a | Raise e => Raise e end.
Global Instance result_fmap : FMap result := λ A B f r,
  match r with Ok a => Ok (f a) | Raise e => Raise e end.

Global Instance exn_eq_dec : EqDecision exn.
Proof. solve_decision. Defined.
Global Instance result_eq_dec `{EqDecision A} : EqDecision (result A).
Proof. solve_decision. Defined.

(** What the module takes from its surroundings. *)
Class Env : Type := {
  (** [openbadge_analysis.core.mac_address_to_id], applied to the value of
      [badge_address]; it may raise. *)
  mac_address_to_id : json → result Z;
  (** The text [str] gives for a value that is not a string. *)
  repr : json → string;
  (** [float] applied to a string: the number it denotes, if any. *)
  float_of_string : string → option Qc;
  (** The zone names the time-zone database knows. *)
  tz_known : string → bool;
  (** The instant at which the local day of an instant begins in a zone
      ([Timestamp.normalize]), both in nanoseconds from the epoch. *)
  day_start : string → Z → Z;
  day_start_le : ∀ tz t, day_start tz t ≤ t;
  day_start_stable : ∀ tz t t',
    day_start tz t ≤ t' ≤ t → day_start tz t' = day_start tz t;
}.

(** [o[key]] *)
Definition getitem (o : json) (key : string) : result json :=
  match o with
  | JObj d => match d !! key with Some v => Ok v | None => Raise (KeyError key) end
  | _ => Raise TypeError
  end.

(** [len(o)] *)
Definition len (o : json) : result Z :=
  match o with
  | JArr items => Ok (Z.of_nat (length items))
  | JStr s => Ok (Z.of_nat (String.length s))
  | JObj d => Ok (Z.of_nat (size d))
  | _ => Raise TypeError
  end.

(** [o == s] for a string literal [s] *)
Definition eq_str (o : json) (s : string) : bool :=
  match o with
  | JStr s' => bool_decide (s' = s)
  | _ => false
  end.

(** [str(o)] *)
Definition str `{Env} (o : json) : string :=
  match o with
  | JStr s => s
  | _ => repr o
  end.

(** [float(o)] *)
Definition float `{Env} (o : json) : result Qc :=
  match o with
  | JNum q => Ok q
  | JBool b => Ok (if b then Qc_of_Z 1 else Qc_of_Z 0)
  | JStr s => match float_of_string s with Some q => Ok q | None => Raise ValueError end
  | _ => Raise TypeError
  end.

(** ** binary64 *)

(** [n / d] rounded to the nearest integer, a tie to the even one. *)
Definition round_half_even (n d : Z) : Z :=
  let q := n `div` d in
  let r2 := 2 * (n `mod` d) in
  if r2 <? d then q
  else if d <? r2 then q + 1
  else if Z.even q then q else q + 1.

(** The binary64 number nearest to a rational, a tie to the even mantissa:
    what [json.loads] and [float] make of a numeral.  The mantissa has 53
    bits, or fewer at the least exponent; a value too large becomes
    infinity, as a numeral with a fraction or an exponent does (a whole
    numeral that large makes [float] raise, which is not modelled). *)
Definition to_binary64 (x : Qc) : PrimFloat.float :=
  let n := Qnum x in
  let d := Zpos (Qden x) in
  if n =? 0 then PrimFloat.zero else
  let a := Z.abs n in
  (* [2 ^ l <= a / d < 2 ^ (l + 1)] *)
  let l0 := Z.log2 a - Z.log2 d in
  let l := if (if 0 <=? l0 then d * 2 ^ l0 <=? a else d <=? a * 2 ^ (- l0))
           then l0 else l0 - 1 in
  let e := Z.max (l - 52) (-1074) in
  let m := if 0 <=? e then round_half_even a (d * 2 ^ e)
           else round_half_even (a * 2 ^ (- e)) d in
  let f := FloatOps.Z.ldexp (PrimFloat.of_uint63 (Uint63.of_Z m)) e in
  if n <? 0 then PrimFloat.opp f else f.

(** ** pandas: datetimes *)

(** A column of dtype [datetime64[ns]] or [datetime64[ns, tz]]. *)
Record DatetimeSeries : Type := {
  dt_values : list Qc;
  dt_tz : option string;
}.

Definition nanos_per_second : Z := 1000000000.

(** The nanosecond counts a [datetime64[ns]] holds: those of a 64-bit
    integer, the least one apart, which is NaT. *)
Definition int64_min : Z := -9223372036854775808.
Definition int64_max : Z := 9223372036854775807.

Definition in_bounds (ns : Qc) : Prop :=
  (Qc_of_Z int64_min < ns ∧ ns ≤ Qc_of_Z int64_max)%Qc.

Global Instance in_bounds_dec ns : Decision (in_bounds ns).
Proof. unfold in_bounds. apply _. Defined.

(** A count of seconds that is a whole count of nanoseconds. *)
Definition whole_nanos (q : Qc) : Prop :=
  ∃ n : Z, (q * Qc_of_Z nanos_per_second)%Qc = Qc_of_Z n.

(** A number that binary64 holds as it is: [m / 2 ^ k] with a mantissa of 53
    bits.  A timestamp reaches pandas as such a number. *)
Definition binary64_exact (q : Qc) : Prop :=
  ∃ m k : Z, Z.abs m < 2 ^ 53 ∧ 0 ≤ k ≤ 1074 ∧ (q * Qc_of_Z (2 ^ k))%Qc = Qc_of_Z m.

(** One element of [pd.to_datetime(..., unit='s')]: the number is a count of
    seconds from the epoch, and the instant must fit.  A value that is not a
    number is refused here; pandas reads a null as NaT and a numeric string
    as a number, and those inputs stay outside the model.  So does the
    rounding of an instant that is not a whole count of nanoseconds, and what
    pandas does with a number within a second of either end of the range or
    equal to the count it keeps for NaT. *)
Definition epoch_ns (x : json) : result Qc :=
  match x with
  | JNum q =>
      let ns := (q * Qc_of_Z nanos_per_second)%Qc in
      if decide (in_bounds ns) then Ok ns else Raise OutOfBoundsDatetime
  | _ => Raise ValueError
  end.

(** [pd.to_datetime(col, unit='s', utc=True)] on a Series: the result is
    naive, which is why the source localizes it next. *)
Definition to_datetime (col : list json) : result DatetimeSeries :=
  vs ← mapM epoch_ns col; Ok {| dt_values := vs; dt_tz := None |}.

(** [.dt.tz_localize('UTC')]: the wall times are read as UTC, so the instants
    stay; a column that has a zone already is refused. *)
Definition tz_localize_UTC (s : DatetimeSeries) : result DatetimeSeries :=
  match dt_tz s with
  | Some _ => Raise TypeError
  | None => Ok {| dt_values := dt_values s; dt_tz := Some "UTC"%string |}
  end.

(** [.dt.tz_convert(tz)]: the instants stay, the zone they are shown in
    changes; a naive column is refused, and so is an unknown zone. *)
Definition tz_convert `{Env} (tz : string) (s : DatetimeSeries) : result DatetimeSeries :=
  match dt_tz s with
  | None => Raise TypeError
  | Some _ =>
      if tz_known tz then Ok {| dt_values := dt_values s; dt_tz := Some tz |}
      else Raise (UnknownTimeZoneError tz)
  end.

(** The expression the three pipelines share:
    [pd.to_datetime(df['timestamp'], unit='s', utc=True)
       .dt.tz_localize('UTC').dt.tz_convert(tz)]. *)
Definition normalize `{Env} (col : list json) (tz : string) : result DatetimeSeries :=
  naive ← to_datetime col;
  utc ← tz_localize_UTC naive;
  tz_convert tz utc.

(** [df['datetime'] = ...; del df['timestamp']] on a frame whose first column
    is [timestamp]. *)
Definition assign_datetime `{Env} {X} (df : list (json * X)) (tz : string)
    : result (option string * list (Qc * X)) :=
  dt ← normalize (df.*1) tz;
  Ok (dt_tz dt, zip (dt_values dt) (df.*2)).

(** ** pandas: frequencies and time bins *)

Definition digit_of (c : ascii) : option Z :=
  let n := Z.of_N (N_of_ascii c) in
  if (48 <=? n) && (n <=? 57) then Some (n - 48) else None.

Fixpoint read_stride (s : string) (acc : option Z) : option Z * string :=
  match s with
  | String c s' =>
      match digit_of c with
      | Some d => read_stride s' (Some (10 * default 0 acc + d))
      | None => (acc, s)
      end
  | EmptyString => (acc, s)
  end.

(** The fixed-width offset aliases, in nanoseconds. *)
Definition tick_nanos (alias : string) : option Z :=
  if decide (alias = "D"%string) then Some 86400000000000
  else if decide (alias = "H"%string) then Some 3600000000000
  else if decide (alias = "T"%string ∨ alias = "min"%string) then Some 60000000000
  else if decide (alias = "S"%string) then Some 1000000000
  else if decide (alias = "L"%string ∨ alias = "ms"%string) then Some 1000000
  else if decide (alias = "U"%string ∨ alias = "us"%string) then Some 1000
  else if decide (alias = "N"%string) then Some 1
  else None.

(** [to_offset(time_bins_size)] for a fixed-width frequency, a positive
    whole multiple of a tick written with one of the aliases above: the
    width of a bin in nanoseconds.  The other frequencies of pandas (calendar
    offsets, sums of ticks, other spellings of an alias) are not modelled:
    they are refused here, and nothing is stated about a run with one.  So
    are bins of several days ("2D"), which pandas does not count from a
    midnight; bins of one day, and of any number of hours, it does. *)
Definition to_offset (freq : string) : result Z :=
  let '(stride, alias) := read_stride freq None in
  match tick_nanos alias with
  | Some unit =>
      let n := default 1 stride in
      if (0 <? n) && ((n =? 1) || negb (bool_decide (alias = "D"%string)))
      then Ok (n * unit) else Raise ValueError
  | None => Raise ValueError
  end.

(** The start of the bin that holds an instant, bins being left-closed and
    counted from [origin]. *)
Definition bin_from (origin width : Z) (t : Qc) : Z :=
  origin + width * Qfloor ((t - Qc_of_Z origin) / Qc_of_Z width)%Qc.

(** The same with the bins counted from the epoch: the bins a table would
    have if its keys were multiples of the width.  No pipeline counts its
    bins so; [keyed_by_bin_start] below states a property with it. *)
Definition bin_start (width : Z) (t : Qc) : Z :=
  width * Qfloor (t / Qc_of_Z width)%Qc.

Definition Qcmin (x y : Qc) : Qc := if decide (x ≤ y)%Qc then x else y.

(** Where the bins of a datetime column are counted from: the local midnight
    of the day of its earliest instant. *)
Definition first_day `{Env} (tz : string) (instants : list Qc) : Z :=
  match instants with
  | [] => 0
  | t :: ts => day_start tz (Qfloor (foldr Qcmin t ts))
  end.

(** The key [.groupby([pd.TimeGrouper(freq, key='datetime'), col])] gives a
    row: the bin of its instant, and its value in the column [col]. *)
Definition time_grouper {X Y} (origin width : Z) (r : Qc * (X * Y)) : (Z * X) * Y :=
  ((bin_from origin width r.1, r.2.1), r.2.2).

(** ** pandas: index keys and their order *)

(** Strings compare as Python compares them: by code point, a proper prefix
    first. *)
Fixpoint code_points (s : string) : list N :=
  match s with
  | EmptyString => []
  | String c s' => N_of_ascii c :: code_points s'
  end.

Global Instance string_lexico : Lexico string := λ a b,
  lexico (code_points a) (code_points b).
Global Instance Qc_lexico : Lexico Qc := Qclt.

Global Instance code_points_inj : Inj (=) (=) code_points.
Proof.
  intros a. induction a as [|c a IH]; intros [|d b] Heq; simplify_eq/=; [done|].
  f_equal; [|by apply IH].
  rewrite <-(ascii_N_embedding c), <-(ascii_N_embedding d). congruence.
Qed.

Global Instance string_lexico_po : StrictOrder (@lexico string _).
Proof.
  unfold lexico, string_lexico. split.
  - intros s. apply (irreflexivity lexico (code_points s)).
  - intros s1 s2 s3. apply (transitivity (R:=lexico)).
Qed.
Global Instance string_lexico_trichotomy : TrichotomyT (@lexico string _).
Proof.
  red; refine (λ s1 s2,
    match trichotomyT lexico (code_points s1) (code_points s2) with
    | inleft (left Hlt) => inleft (left Hlt)
    | inleft (right Heq) => inleft (right (code_points_inj _ _ Heq))
    | inright Hgt => inright Hgt
    end).
Defined.

Global Instance Qc_lexico_po : StrictOrder (@lexico Qc _).
Proof. unfold lexico, Qc_lexico. apply _. Qed.
Global Instance Qc_lexico_trichotomy : TrichotomyT (@lexico Qc _).
Proof.
  red; refine (λ x y,
    match Qclt_le_dec x y with
    | left Hlt => inleft (left Hlt)
    | right Hle =>
        match Qc_eq_dec x y with
        | left Heq => inleft (right Heq)
        | right Hne => inright _
        end
    end).
  unfold lexico, Qc_lexico.
  destruct (Qcle_lt_or_eq _ _ Hle) as [?|?]; [done|]. by destruct Hne.
Defined.

(** [a <= b] on index keys. *)
Definition index_le `{Lexico K} : relation K := λ a b, lexico a b ∨ a = b.

(** Rows of a table, compared by key. *)
Definition row_lt `{Lexico K} {V} : relation (K * V) := λ r1 r2, lexico r1.1 r2.1.
Definition row_le `{Lexico K} {V} : relation (K * V) := λ r1 r2, index_le r1.1 r2.1.

(** A Series (or a one-column frame) with its index: the zone of the
    datetime level, and the rows in order. *)
Record Series (K V : Type) : Type := {
  index_tz : option string;
  rows : list (K * V);
}.
Global Arguments index_tz {K V} s.
Global Arguments rows {K V} s.

Section index.
Context `{Lexico K, !StrictOrder (@lexico K _), !TrichotomyT (@lexico K _)}.
Context `{EqDecision K}.

Global Instance index_le_dec : RelDecision (@index_le K _).
Proof. unfold index_le. solve_decision. Defined.
Global Instance row_le_dec {V} : RelDecision (@row_le K _ V).
Proof. unfold row_le. solve_decision. Defined.
Global Instance row_lt_dec {V} : RelDecision (@row_lt K _ V).
Proof. unfold row_lt. solve_decision. Defined.

(** [.sort_index()]: the rows in the order of their keys.  The order pandas
    leaves rows of one key in is not modelled. *)
Definition sort_index {V} (df : list (K * V)) : list (K * V) :=
  merge_sort row_le df.

(** The values of the rows whose key is [k], in the order of the frame. *)
Definition values_of {V} (k : K) (df : list (K * V)) : list V :=
  (filter (λ r, r.1 = k) df).*2.

(** [.groupby(keys)]: one group for each key that occurs, the groups in the
    order of their keys, the rows of a group in the order of the frame. *)
Definition groupby {V} (df : list (K * V)) : list (K * list V) :=
  (λ k, (k, values_of k df)) <$> merge_sort index_le (remove_dups (df.*1)).
End index.

(** [.first()] of a group: its first value ([None] is NaN, the result for a
    group without a value). *)
Definition first {V} (g : list V) : option V := head g.

(** [.mean()] of a group of binary64 numbers: the values are added up from
    zero in the order of the frame, and the sum is divided by their
    number. *)
Definition mean (g : list PrimFloat.float) : PrimFloat.float :=
  PrimFloat.div (foldl PrimFloat.add PrimFloat.zero g)
                (PrimFloat.of_uint63 (Uint63.of_Z (Z.of_nat (length g)))).

(** ** pandas: upsampling with forward fill *)

(** [pd.date_range(first, last, freq)] *)
Definition date_range (first last width : Z) : list Z :=
  (λ k, first + width * k) <$> seqZ 0 ((last - first) `div` width + 1).

(** [reindex(..., method='ffill')] at one label: the value of the last row
    of [g] at or before [b]; NaN when there is none.  The index of [g] is
    increasing. *)
Definition asof {V} (g : list (Z * option V)) (b : Z) : option V :=
  match last (filter (λ r, r.1 ≤ b) g) with
  | Some r => r.2
  | None => None
  end.

(** The local midnight of the day of a label of a datetime index; a naive
    index has its days in UTC. *)
Definition nanos_per_day : Z := 86400000000000.

Definition index_day_start `{Env} (zone : option string) (t : Z) : Z :=
  match zone with
  | Some tz => day_start tz t
  | None => nanos_per_day * (t `div` nanos_per_day)
  end.

(** [.resample(freq).fillna(method='ffill')] on one group: the bins are
    counted from the local midnight of the day of the least label of the
    group; there is a row for each from that of the least label to that of
    the greatest, with the value known at its start.  (For a group whose
    labels are evenly spaced by the width, three or more, pandas keeps the
    values and only renames the labels; that is the same where the labels are
    bin starts of the group, and is not modelled where they are not.) *)
Definition resample_ffill `{Env} {V} (zone : option string) (width : Z)
    (g : list (Z * option V)) : list (Z * option V) :=
  match g.*1 with
  | [] => []
  | t :: ts =>
      let first := foldr Z.min t ts in
      let last := foldr Z.max t ts in
      let origin := index_day_start zone first in
      let lo := bin_from origin width (Qc_of_Z first) in
      let hi := bin_from origin width (Qc_of_Z last) in
      (λ b, (b, asof g b)) <$> date_range lo hi width
  end.

(** ** metadata.py *)

(** The frame [sample_counts] returns: its index has the levels
    [datetime, member], or [datetime, type, member] with [keep_type]. *)
Inductive CountTable : Type :=
  | ByMember (t : Series (Qc * string) Z)
  | ByTypeMember (t : Series (Qc * string * string) Z).

Section metadata.
Context `{Env}.

(** [_id_to_member_mapping_fill_gaps(idmap, time_bins_size)].  The index of
    [idmap] is ascending, as [id_to_member_mapping] leaves it.  Each device
    is resampled by itself.  The grouped resampling of a frame without rows
    has a flat index, which [reorder_levels] refuses. *)
Definition _id_to_member_mapping_fill_gaps
    (idmap : Series (Z * Z) (option string)) (time_bins_size : string)
    : result (Series (Z * Z) (option string)) :=
  width ← to_offset time_bins_size;
  (* df = idmap.to_frame().reset_index(); df.set_index('datetime') *)
  let df := (λ r, (r.1.2, (r.1.1, r.2))) <$> rows idmap in
  (* df.groupby(['id'])['member'].resample(...).fillna(method='ffill') *)
  let s := '(i, g) ← groupby df;
           (λ r, ((i, r.1), r.2)) <$> resample_ffill (index_tz idmap) width g in
  (* s.reorder_levels((1,0)).sort_index() *)
  match rows idmap with
  | [] => Raise (Exception "Can only reorder levels on a hierarchical axis.")
  | _ :: _ =>
      Ok {| index_tz := index_tz idmap;
            rows := sort_index ((λ r, ((r.1.2, r.1.1), r.2)) <$> s) |}
  end.

(** The body of the loop of [readfile] in [id_to_member_mapping]. *)
Definition id_to_member_mapping_row (line : json) : result (json * (Z * string)) :=
  data ← getitem line "data";
  timestamp ← getitem data "timestamp";
  badge_address ← getitem data "badge_address";
  id ← mac_address_to_id badge_address;
  member ← getitem data "member";
  Ok (timestamp, (id, str member)).

Definition id_to_member_mapping
    (fileobject : list json) (time_bins_size tz : string) (fill_gaps : bool)
    : result (Series (Z * Z) (option string)) :=
  df ← mapM id_to_member_mapping_row fileobject;
  '(zone, df) ← assign_datetime df tz;
  width ← to_offset time_bins_size;
  (* df.groupby([pd.TimeGrouper(...), 'id']).first() *)
  let origin := first_day tz (df.*1) in
  let df := (λ '(k, g), (k, first g)) <$>
              groupby (time_grouper origin width <$> df) in
  let s := {| index_tz := zone; rows := sort_index df |} in
  if fill_gaps then _id_to_member_mapping_fill_gaps s time_bins_size
  else Ok s.

(** The body of the loop of [readfile] in [voltages]. *)
Definition voltages_row (line : json) : result (json * (string * Qc)) :=
  data ← getitem line "data";
  timestamp ← getitem data "timestamp";
  member ← getitem data "member";
  voltage ← getitem data "voltage";
  voltage ← float voltage;
  Ok (timestamp, (str member, voltage)).

(** The frame [voltages] builds has its voltages in a column of binary64
    numbers. *)
Definition float64_column {X Y} (r : X * (Y * Qc)) : X * (Y * PrimFloat.float) :=
  (r.1, (r.2.1, to_binary64 r.2.2)).

(** In a frame without rows the columns have no numeric type: [.mean()]
    leaves the voltage column out, and [df['voltage']] does not find it. *)
Definition voltages (fileobject : list json) (time_bins_size tz : string)
    : result (Series (Z * string) PrimFloat.float) :=
  df ← mapM voltages_row fileobject;
  '(zone, df) ← assign_datetime df tz;
  width ← to_offset time_bins_size;
  (* df.groupby([pd.TimeGrouper(...), 'member']).mean() *)
  let origin := first_day tz (df.*1) in
  let means := (λ '(k, g), (k, mean g)) <$>
                 groupby (time_grouper origin width <$> (float64_column <$> df)) in
  (* df.sort_index(inplace=True); df['voltage'] *)
  match df with
  | [] => Raise (KeyError "voltage")
  | _ :: _ => Ok {| index_tz := zone; rows := sort_index means |}
  end.

(** The body of the loop of [readfile] in [sample_counts]. *)
Definition sample_counts_row (line : json) : result (json * (string * string * Z)) :=
  data ← getitem line "data";
  type ← getitem line "type";
  cnt ← (if eq_str type "proximity received" then
           (x ← getitem data "rssi_distances"; len x)
         else if eq_str type "audio received" then
           (x ← getitem data "samples"; len x)
         else Ok (-1));
  timestamp ← getitem data "timestamp";
  member ← getitem data "member";
  Ok (timestamp, (str type, str member, cnt)).

Definition sample_counts (fileobject : list json) (tz : string) (keep_type : bool)
    : result CountTable :=
  df ← mapM sample_counts_row fileobject;
  '(zone, df) ← assign_datetime df tz;
  if keep_type then
    let df := (λ r, ((r.1, r.2.1.1, r.2.1.2), r.2.2)) <$> df in
    Ok (ByTypeMember {| index_tz := zone; rows := sort_index df |})
  else
    let df := (λ r, ((r.1, r.2.1.2), r.2.2)) <$> df in
    Ok (ByMember {| index_tz := zone; rows := sort_index df |}).
End metadata.

(** The record a line decodes to, once its timestamp is an instant. *)
Definition with_instant {X} (r : json * X) : result (Qc * X) :=
  t ← epoch_ns r.1; Ok (t, r.2).

Definition id_record `{Env} (line : json) : result (Qc * (Z * string)) :=
  id_to_member_mapping_row line ≫= with_instant.
Definition voltage_record `{Env} (line : json) : result (Qc * (string * Qc)) :=
  voltages_row line ≫= with_instant.
Definition count_record `{Env} (line : json) : result (Qc * (string * string * Z)) :=
  sample_counts_row line ≫= with_instant.

(** An instant the model has as pandas has it: a whole count of nanoseconds
    whose count of seconds binary64 holds as it is. *)
Definition exact_instant (t : Qc) : Prop :=
  ∃ q, t = (q * Qc_of_Z nanos_per_second)%Qc ∧ binary64_exact q ∧ whole_nanos q.

Definition exact_instants {X} (recs : list (Qc * X)) : Prop :=
  Forall (λ r, exact_instant r.1) recs.

(** Where the bins of a stream are counted from. *)
Definition stream_origin `{Env} {X} (tz : string) (recs : list (Qc * X)) : Z :=
  first_day tz (recs.*1).

(** The voltage readings of the lines that fall under the key [k], in stream
    order, as binary64 numbers. *)
Definition readings `{Env} (origin width : Z) (k : Z * string) (lines : list json)
    : list PrimFloat.float :=
  omap (λ line,
    match voltage_record line with
    | Ok (t, (m, v)) =>
        if decide ((bin_from origin width t, m) = k) then Some (to_binary64 v) else None
    | Raise _ => None
    end) lines.

(** The defaults of the keyword arguments. *)
Definition default_time_bins_size : string := "1min".
Definition default_tz : string := "US/Eastern".

(** ** Named parts of the pipelines *)

(** The rows of the identity mapping before gaps are filled, and after. *)
Definition idmap_rows (origin width : Z) (recs : list (Qc * (Z * string)))
    : list (Z * Z * option string) :=
  sort_index ((λ '(k, g), (k, first g)) <$> groupby (time_grouper origin width <$> recs)).

Definition filled_rows `{Env} (zone : option string) (width : Z)
    (idmap : list (Z * Z * option string)) : list (Z * Z * option string) :=
  sort_index ((λ r, ((r.1.2, r.1.1), r.2)) <$>
    ('(i, g) ← groupby ((λ r, (r.1.2, (r.1.1, r.2))) <$> idmap);
     (λ r, ((i, r.1), r.2)) <$> resample_ffill zone width g)).

(** ** Examples *)

(** The local midnight at or before an instant, in a zone that is [offset]
    nanoseconds behind UTC all year. *)
Definition fixed_offset_day_start (offset t : Z) : Z :=
  nanos_per_day * ((t - offset) `div` nanos_per_day) + offset.

Lemma fixed_offset_day_start_le offset t : fixed_offset_day_start offset t ≤ t.
Proof.
  unfold fixed_offset_day_start.
  pose proof (Z.mul_div_le (t - offset) nanos_per_day eq_refl). lia.
Qed.

Lemma fixed_offset_day_start_stable offset t t' :
  fixed_offset_day_start offset t ≤ t' ≤ t →
  fixed_offset_day_start offset t' = fixed_offset_day_start offset t.
Proof.
  unfold fixed_offset_day_start. intros Ht'. do 2 f_equal.
  symmetry. apply (Z.div_unique_pos _ _ _ (t' - offset - nanos_per_day * ((t - offset) `div` nanos_per_day))); [|lia].
  pose proof (Z.div_mod (t - offset) nanos_per_day ltac:(done)).
  pose proof (Z.mod_pos_bound (t - offset) nanos_per_day eq_refl). lia.
Qed.

(** An environment for the examples: a device id is the length of the
    address, and one zone is known, five hours behind UTC as US/Eastern is
    in winter. *)
Definition example_env : Env := {|
  mac_address_to_id := λ j,
    match j with JStr s => Ok (Z.of_nat (String.length s)) | _ => Raise TypeError end;
  repr := λ _, "?"%string;
  float_of_string := λ _, None;
  tz_known := λ z, bool_decide (z = "US/Eastern"%string);
  day_start := λ _, fixed_offset_day_start 18000000000000;
  day_start_le := λ _, fixed_offset_day_start_le 18000000000000;
  day_start_stable := λ _, fixed_offset_day_start_stable 18000000000000;
|}.

(** [{k1: v1, ...}] *)
Definition obj (fields : list (string * json)) : json := JObj (list_to_map fields).

Definition identity_line (timestamp : Z) (badge_address member : string) : json :=
  obj [("type", JStr "proximity received");
       ("data", obj [("timestamp", JNum (Qc_of_Z timestamp));
                     ("badge_address", JStr badge_address);
                     ("member", JStr member)])]%string.

Definition voltage_line (timestamp : Z) (member : string) (voltage : Z) : json :=
  obj [("type", JStr "proximity received");
       ("data", obj [("timestamp", JNum (Qc_of_Z timestamp));
                     ("member", JStr member);
                     ("voltage", JNum (Qc_of_Z voltage))])]%string.

(** The same with the voltage in tenths. *)
Definition voltage_line_tenths (timestamp : Z) (member : string) (tenths : Z) : json :=
  obj [("type", JStr "proximity received");
       ("data", obj [("timestamp", JNum (Qc_of_Z timestamp));
                     ("member", JStr member);
                     ("voltage", JNum (Q2Qc (tenths # 10)))])]%string.

Definition count_line (type : string) (timestamp : Z) (member field : string)
    (samples : list json) : json :=
  obj [("type", JStr type);
       ("data", obj [("timestamp", JNum (Qc_of_Z timestamp));
                     ("member", JStr member);
                     ("badge_address", JStr "AA:BB:CC:DD:EE:FF");
                     (field, JArr samples)])]%string.

(** A stream of two days, for bins of seven minutes: a device "dd" seen on the
    first day, and a device "d" seen on the second, at 18600 s with the
    wearer "A" and at 19860 s with the wearer "B". *)
Definition two_day_stream : list json :=
  [identity_line 1000 "dd" "Z"; identity_line 18600 "d" "A"; identity_line 19860 "d" "B"].

(** The same with both records of "d" in one bin, "A" before "B". *)
Definition two_day_tie_stream : list json :=
  [identity_line 1000 "dd" "Z"; identity_line 18600 "d" "A"; identity_line 18610 "d" "B"].

(** The same with "d" seen once. *)
Definition two_day_single_stream : list json :=
  [identity_line 1000 "dd" "Z"; identity_line 18600 "d" "A"].

(** Three readings of one wearer in one minute, in two orders. *)
Definition three_readings : list json :=
  [voltage_line_tenths 1000 "W" 1; voltage_line_tenths 1005 "W" 2;
   voltage_line_tenths 1010 "W" 3].
Definition three_readings_reversed : list json :=
  [voltage_line_tenths 1010 "W" 3; voltage_line_tenths 1005 "W" 2;
   voltage_line_tenths 1000 "W" 1].

(** ** Properties of tables *)

(** Every row of the table is labelled with the start of a bin of the given
    width. *)
Definition keyed_by_bin_start (width : Z) (table : CountTable) : Prop :=
  match table with
  | ByMember t => ∀ r, r ∈ rows t → r.1.1 = Qc_of_Z (bin_start width r.1.1)
  | ByTypeMember t => ∀ r, r ∈ rows t → r.1.1.1 = Qc_of_Z (bin_start width r.1.1.1)
  end.

(** [lo] and [hi] are the first and the last bin in which the mapping has a
    row for the device [d]. *)
Definition device_range (idmap : list (Z * Z * option string)) (d lo hi : Z) : Prop :=
  (lo, d) ∈ idmap.*1 ∧ (hi, d) ∈ idmap.*1 ∧ ∀ b, (b, d) ∈ idmap.*1 → lo ≤ b ≤ hi.

(** Every row of the mapping sits on the start of a bin, the bins counted
    from [origin]. *)
Definition on_grid (origin width : Z) (idmap : list (Z * Z * option string)) : Prop :=
  ∀ b d v, ((b, d), v) ∈ idmap → (width | b - origin).

(** Between the first and the last bin of a device no bin is without a
    row. *)
Definition contiguous (width : Z) (idmap : list (Z * Z * option string)) : Prop :=
  ∀ d lo hi b, device_range idmap d lo hi → lo ≤ b ≤ hi → (width | b - lo) →
    (b, d) ∈ idmap.*1.

(** The local midnights of the zone are whole numbers of bins apart, so that
    bins counted from any of them are the same bins.  It is so when every day
    of the zone is a whole number of bins long, as with bins of one minute
    in a zone whose clock is only ever moved by whole minutes. *)
Definition grid_aligned `{Env} (tz : string) (width : Z) : Prop :=
  ∀ t t', (width | day_start tz t - day_start tz t').

(** * Properties *)

(** ** The error monad *)

Lemma bind_Ok {A B} (f : A → result B) (m : result A) b :
  m ≫= f = Ok b ↔ ∃ a, m = Ok a ∧ f a = Ok b.
Proof.
  destruct m as [a|e]; simpl; split.
  - eauto.
  - by intros (? & [= <-] & ?).
  - done.
  - by intros (? & [=] & _).
Qed.

Lemma bind_Raise {A B} (f : A → result B) (m : result A) e :
  m ≫= f = Raise e ↔ m = Raise e ∨ ∃ a, m = Ok a ∧ f a = Raise e.
Proof.
  destruct m as [a|e']; simpl; split.
  - eauto.
  - by intros [[=]|(? & [= <-] & ?)].
  - intros [= ->]. by left.
  - by intros [[= ->]|(? & [=] & _)].
Qed.

Section result_facts.
Context {A B : Type}.
Implicit Types (f : A → result B) (m : result A).

Lemma mapM_Ok f l bs : mapM f l = Ok bs ↔ Forall2 (λ a b, f a = Ok b) l bs.
Proof.
  revert bs. induction l as [|a l IH]; intros bs; simpl.
  - split; [intros [= <-]; constructor | by inversion 1].
  - split.
    + intros (b & Hb & (bs' & Hbs & [= <-])%bind_Ok)%bind_Ok.
      constructor; [done | by apply IH].
    + inversion 1 as [|? b ? bs' Hb Hbs]; subst.
      apply IH in Hbs. by rewrite Hb, Hbs.
Qed.

Lemma mapM_Ok_fmap f (g : A → B) l : (∀ a, a ∈ l → f a = Ok (g a)) → mapM f l = Ok (g <$> l).
Proof.
  intros Hf. apply mapM_Ok. induction l as [|a l IH]; constructor.
  - apply Hf. by left.
  - apply IH. intros ??. apply Hf. by right.
Qed.

(** The first line that raises decides the exception. *)
Lemma mapM_Raise f pre a post e :
  Forall (λ a, ∃ b, f a = Ok b) pre → f a = Raise e →
  mapM f (pre ++ a :: post) = Raise e.
Proof.
  intros Hpre Ha. induction Hpre as [|a' pre [b Hb] _ IH]; simpl.
  - by rewrite Ha.
  - by rewrite Hb, IH.
Qed.

Lemma mapM_Raise_any f l a e :
  a ∈ l → f a = Raise e → ∃ e', mapM f l = Raise e'.
Proof.
  intros Hin Ha. induction l as [|a' l IH]; [by apply elem_of_nil in Hin|].
  simpl. destruct (f a') as [b|e'] eqn:Hfa'; [|by eexists].
  apply elem_of_cons in Hin as [->|Hin]; [congruence|].
  destruct (IH Hin) as [e' ->]. by eexists.
Qed.

Lemma mapM_Ok_Permutation f l l' bs :
  l ≡ₚ l' → mapM f l = Ok bs → ∃ bs', mapM f l' = Ok bs' ∧ bs ≡ₚ bs'.
Proof.
  intros Hl. revert bs. induction Hl as [|a l l' _ IH|a1 a2 l|l1 l2 l3 _ IH1 _ IH2]; intros bs.
  - intros [= <-]. by exists [].
  - simpl. intros (b & Hb & (bs' & Hbs & [= <-])%bind_Ok)%bind_Ok.
    destruct (IH _ Hbs) as (bs'' & -> & ?). rewrite Hb. simpl.
    eexists; split; [done|]. by constructor.
  - simpl. intros (b2 & Hb2 & (bs' & (b1 & Hb1 & (bs'' & Hbs & [= <-])%bind_Ok)%bind_Ok
      & [= <-])%bind_Ok)%bind_Ok.
    rewrite Hb1, Hb2, Hbs. simpl. eexists; split; [done|]. by constructor.
  - intros Hbs. destruct (IH1 _ Hbs) as (bs2 & Hbs2 & ?).
    destruct (IH2 _ Hbs2) as (bs3 & ? & ?). exists bs3. split; [done|]. by etrans.
Qed.
End result_facts.

(** ** Keys, sorting and grouping *)

Lemma filter_none {A} (P : A → Prop) `{∀ x, Decision (P x)} (l : list A) :
  (∀ x, x ∈ l → ¬ P x) → filter P l = [].
Proof.
  induction l as [|x l IH]; [done|]. intros Hl.
  rewrite filter_cons_False by (apply Hl; by left).
  apply IH. intros ??. apply Hl. by right.
Qed.

Lemma NoDup_fst_agree {K V} (l : list (K * V)) k v1 v2 :
  NoDup (l.*1) → (k, v1) ∈ l → (k, v2) ∈ l → v1 = v2.
Proof.
  induction l as [|[k' v'] l IH]; simpl; [by intros _ ?%elem_of_nil|].
  rewrite NoDup_cons. intros [Hk' Hnd] H1 H2.
  assert (Hfresh : ∀ v, (k', v) ∉ l).
  { intros v Hv. destruct Hk'. apply list_elem_of_fmap. by exists (k', v). }
  apply elem_of_cons in H1 as [H1|H1]; apply elem_of_cons in H2 as [H2|H2]; simplify_eq.
  - done.
  - by destruct (Hfresh v2).
  - by destruct (Hfresh v1).
  - by apply IH.
Qed.

Lemma filter_key_singleton {K V} `{EqDecision K} (l : list (K * V)) k v :
  NoDup (l.*1) → (k, v) ∈ l → filter (λ r, r.1 = k) l = [(k, v)].
Proof.
  induction l as [|[k' v'] l IH]; simpl; [by intros _ ?%elem_of_nil|].
  rewrite NoDup_cons. intros [Hk' Hnd] Hin.
  assert (Hfresh : ∀ v, (k', v) ∉ l).
  { intros v0 Hv. destruct Hk'. apply list_elem_of_fmap. by exists (k', v0). }
  rewrite filter_cons. simpl. apply elem_of_cons in Hin as [Hin|Hin]; simplify_eq.
  - rewrite decide_True by done. f_equal.
    apply filter_none. intros [k1 v1] Hin1 ?.
    simplify_eq/=. by destruct (Hfresh v1).
  - rewrite decide_False; [by apply IH|].
    intros ->. by destruct (Hfresh v).
Qed.

Section index_facts.
Context `{Lexico K, !StrictOrder (@lexico K _), !TrichotomyT (@lexico K _)}.
Context `{EqDecision K}.

Global Instance index_le_refl : Reflexive (@index_le K _).
Proof. intros k. by right. Qed.
Global Instance index_le_trans : Transitive (@index_le K _).
Proof.
  intros k1 k2 k3 [H12| ->] [H23| ->]; unfold index_le; auto.
  left. by trans k2.
Qed.
Global Instance index_le_total : Total (@index_le K _).
Proof.
  intros k1 k2. unfold index_le.
  destruct (trichotomy lexico k1 k2) as [?|[?|?]]; auto.
Qed.
Global Instance index_le_antisym : AntiSymm (=) (@index_le K _).
Proof.
  intros k1 k2 [H12|?] [H21|?]; try done.
  destruct (irreflexivity lexico k1). by trans k2.
Qed.

Global Instance row_le_trans {V} : Transitive (@row_le K _ V).
Proof. intros r1 r2 r3. unfold row_le. apply transitivity. Qed.
Global Instance row_le_total {V} : Total (@row_le K _ V).
Proof. intros r1 r2. unfold row_le. apply total, _. Qed.

Lemma sort_index_Permutation {V} (df : list (K * V)) : sort_index df ≡ₚ df.
Proof. apply merge_sort_Permutation. Qed.

Lemma elem_of_sort_index {V} (df : list (K * V)) r : r ∈ sort_index df ↔ r ∈ df.
Proof. by rewrite sort_index_Permutation. Qed.

Lemma sort_index_nil {V} : sort_index (V:=V) [] = [].
Proof. done. Qed.

Lemma sort_index_Sorted {V} (df : list (K * V)) : Sorted row_le (sort_index df).
Proof. apply Sorted_merge_sort, _. Qed.

(** Ascending with distinct keys is strictly ascending. *)
Lemma row_le_lt_NoDup {V} (l : list (K * V)) :
  StronglySorted row_le l → NoDup (l.*1) → StronglySorted row_lt l.
Proof.
  induction 1 as [|r l Hl IH Hr]; simpl; [constructor|].
  rewrite NoDup_cons. intros [Hnin Hnd]. constructor; [by apply IH|].
  apply Forall_forall. intros r' Hr'.
  rewrite Forall_forall in Hr. destruct (Hr _ Hr') as [?|Heq]; [done|].
  destruct Hnin. rewrite Heq. apply list_elem_of_fmap. by exists r'.
Qed.

Lemma row_lt_NoDup {V} (l : list (K * V)) : StronglySorted row_lt l → NoDup (l.*1).
Proof.
  induction 1 as [|r l Hl IH Hr]; simpl; constructor; [|done].
  intros (r' & Heq & Hr')%list_elem_of_fmap.
  rewrite Forall_forall in Hr. specialize (Hr _ Hr'). unfold row_lt in Hr.
  rewrite Heq in Hr. by destruct (irreflexivity lexico r'.1).
Qed.

Global Instance row_lt_trans {V} : Transitive (@row_lt K _ V).
Proof. intros r1 r2 r3. unfold row_lt. apply transitivity. Qed.

Lemma sort_index_strict {V} (df : list (K * V)) :
  NoDup (df.*1) → Sorted row_lt (sort_index df).
Proof.
  intros Hnd. apply StronglySorted_Sorted, row_le_lt_NoDup.
  - apply StronglySorted_merge_sort; apply _.
  - by rewrite sort_index_Permutation.
Qed.

(** With distinct keys the sorted frame does not depend on the order of
    the rows. *)
Lemma sort_index_unique {V} (df df' : list (K * V)) :
  NoDup (df.*1) → df ≡ₚ df' → sort_index df = sort_index df'.
Proof.
  intros Hnd Hperm.
  apply (StronglySorted_unique_strong row_le).
  - intros [k1 v1] [k2 v2] H1 H2 H12 H21.
    apply (proj1 (elem_of_sort_index _ _)) in H1.
    apply (proj1 (elem_of_sort_index _ _)) in H2.
    rewrite <-Hperm in H2.
    assert (k1 = k2) as -> by (by apply (anti_symm index_le)).
    f_equal. eapply (NoDup_fst_agree df); eauto.
  - apply StronglySorted_merge_sort; apply _.
  - apply StronglySorted_merge_sort; apply _.
  - by rewrite !sort_index_Permutation.
Qed.

Lemma sort_index_sorted_id {V} (df : list (K * V)) :
  Sorted row_lt df → sort_index df = df.
Proof.
  intros Hs. apply Sorted_StronglySorted in Hs; [|apply _].
  apply (StronglySorted_unique_strong row_le).
  - intros [k1 v1] [k2 v2] H1 H2 H12 H21.
    apply (proj1 (elem_of_sort_index _ _)) in H1.
    assert (k1 = k2) as -> by (by apply (anti_symm index_le)).
    f_equal. eapply (NoDup_fst_agree df); eauto. by apply row_lt_NoDup.
  - apply StronglySorted_merge_sort; apply _.
  - clear -Hs. induction Hs as [|r l Hl IH Hr]; constructor; [done|].
    eapply Forall_impl; [done|]. intros r' ?. by left.
  - apply sort_index_Permutation.
Qed.

Lemma groupby_keys {V} (df : list (K * V)) :
  (groupby df).*1 = merge_sort index_le (remove_dups (df.*1)).
Proof. unfold groupby. rewrite <-list_fmap_compose. apply list_fmap_id. Qed.

Lemma groupby_NoDup {V} (df : list (K * V)) : NoDup ((groupby df).*1).
Proof. rewrite groupby_keys, merge_sort_Permutation. apply NoDup_remove_dups. Qed.

Lemma elem_of_groupby {V} (df : list (K * V)) k g :
  (k, g) ∈ groupby df ↔ k ∈ df.*1 ∧ g = values_of k df.
Proof.
  unfold groupby. rewrite list_elem_of_fmap. split.
  - intros (k' & [= -> ->] & Hk). by rewrite merge_sort_Permutation, elem_of_remove_dups in Hk.
  - intros [Hk ->]. exists k. by rewrite merge_sort_Permutation, elem_of_remove_dups.
Qed.

Lemma groupby_nil {V} : groupby (V:=V) [] = [].
Proof. done. Qed.

Lemma values_of_app {V} k (df1 df2 : list (K * V)) :
  values_of k (df1 ++ df2) = values_of k df1 ++ values_of k df2.
Proof. unfold values_of. by rewrite filter_app, fmap_app. Qed.

Lemma values_of_absent {V} k (df : list (K * V)) : k ∉ df.*1 → values_of k df = [].
Proof.
  intros Hk. unfold values_of.
  rewrite filter_none; [done|].
  intros r Hr Heq. destruct Hk.
  apply list_elem_of_fmap. by exists r.
Qed.

Lemma values_of_cons_eq {V} k v (df : list (K * V)) :
  values_of k ((k, v) :: df) = v :: values_of k df.
Proof. unfold values_of. rewrite filter_cons. simpl. by rewrite decide_True. Qed.

Lemma values_of_Permutation {V} k (df df' : list (K * V)) :
  df ≡ₚ df' → values_of k df ≡ₚ values_of k df'.
Proof. intros Hp. unfold values_of. by rewrite Hp. Qed.
End index_facts.

(** ** Frequencies and bins *)

Lemma tick_nanos_pos alias unit : tick_nanos alias = Some unit → 0 < unit.
Proof. unfold tick_nanos. repeat case_decide; intros [= <-]; lia. Qed.

Lemma to_offset_pos freq width : to_offset freq = Ok width → 0 < width.
Proof.
  unfold to_offset. destruct (read_stride freq None) as [stride alias].
  destruct (tick_nanos alias) as [unit|] eqn:Hunit; [|done].
  apply tick_nanos_pos in Hunit.
  destruct (0 <? default 1 stride) eqn:Hn; [|done].
  apply Z.ltb_lt in Hn. simpl. case_match; [|done]. intros [= <-]. lia.
Qed.

Lemma exact_instant_second (n : Z) :
  Z.abs n < 2 ^ 53 → exact_instant (Qc_of_Z n * Qc_of_Z nanos_per_second).
Proof.
  intros Hn. exists (Qc_of_Z n). split_and!; [done| |].
  - exists n, 0. split_and!; [done|lia..|]. apply Qcmult_1_r.
  - exists (n * nanos_per_second). by rewrite Z2Qc_inj_mul.
Qed.

Lemma to_offset_default : to_offset default_time_bins_size = Ok 60000000000.
Proof. reflexivity. Qed.

Lemma Qc_of_Z_pos w : 0 < w → (0 < Qc_of_Z w)%Qc.
Proof. intros Hw. rewrite <-Z2Qc_inj_0. by apply (proj1 (Z2Qc_inj_lt 0 _)). Qed.

(** Rounding down the quotient of two integers is their integer quotient. *)
Lemma Qfloor_div_Z a w : 0 < w → Qfloor (Qc_of_Z a / Qc_of_Z w)%Qc = a `div` w.
Proof.
  intros Hw. destruct w as [|p|p]; try lia.
  transitivity (Qfloor (a # p)); [|done].
  apply Qfloor_comp. simpl. rewrite !Qred_correct.
  unfold Qeq. simpl. lia.
Qed.

Lemma bin_from_Z origin width x :
  0 < width →
  bin_from origin width (Qc_of_Z x) = origin + width * ((x - origin) `div` width).
Proof.
  intros Hw. unfold bin_from. by rewrite <-Z2Qc_inj_sub, Qfloor_div_Z.
Qed.

(** A label that is a bin start is the start of its own bin. *)
Lemma bin_from_on_grid origin width b :
  0 < width → (width | b - origin) → bin_from origin width (Qc_of_Z b) = b.
Proof.
  intros Hw [k Hk]. rewrite bin_from_Z, Hk, Z.div_mul by lia. lia.
Qed.

Lemma bin_from_grid origin width t : (width | bin_from origin width t - origin).
Proof. unfold bin_from. eexists. by rewrite Z.mul_comm, Z.add_simpl_l. Qed.

(** Bins counted from two origins a whole number of bins apart are the same
    bins. *)
Lemma bin_from_Z_shift origin origin' width x :
  0 < width → (width | origin - origin') →
  bin_from origin width (Qc_of_Z x) = bin_from origin' width (Qc_of_Z x).
Proof.
  intros Hw [k Hk]. rewrite !bin_from_Z by done.
  replace (x - origin') with (x - origin + k * width) by lia.
  rewrite Z.div_add by lia. lia.
Qed.

(** A bin is the half-open interval from its start: the bin of an instant
    starts at or before the instant and ends after it. *)
Lemma bin_from_bounds origin width t :
  0 < width →
  (Qc_of_Z (bin_from origin width t) ≤ t ∧
   t < Qc_of_Z (bin_from origin width t + width))%Qc.
Proof.
  intros Hw. unfold bin_from.
  set (x := ((t - Qc_of_Z origin) / Qc_of_Z width)%Qc).
  pose proof (Qc_of_Z_pos _ Hw) as Hwq.
  assert (Ht : (Qc_of_Z origin + Qc_of_Z width * x)%Qc = t).
  { unfold x, Qcdiv.
    rewrite (Qcmult_comm (t - _)), Qcmult_assoc, Qcmult_inv_r, Qcmult_1_l; [ring|].
    intros Heq. rewrite Heq in Hwq. by apply Qclt_not_eq in Hwq. }
  replace (origin + width * Qfloor x + width) with (origin + width * (Qfloor x + 1)) by lia.
  clearbody x. rewrite !(Z2Qc_inj_add origin), !Z2Qc_inj_mul, <-Ht. split.
  - apply Qcplus_le_mono_l, Qcmult_le_mono_nonneg_l; [by apply Qclt_le_weak|]. apply Qfloor_le.
  - apply Qcplus_lt_mono_l, Qcmult_lt_mono_pos_l; [done|]. apply Qlt_floor.
Qed.

(** ** Days *)

Lemma floor_stable origin width x y :
  0 < width → origin + width * ((x - origin) `div` width) ≤ y ≤ x →
  (y - origin) `div` width = (x - origin) `div` width.
Proof.
  intros Hw Hy. symmetry.
  apply (Z.div_unique_pos _ _ _ (y - origin - width * ((x - origin) `div` width))); [|lia].
  pose proof (Z.div_mod (x - origin) width ltac:(lia)).
  pose proof (Z.mod_pos_bound (x - origin) width Hw). lia.
Qed.

Section days.
Context `{Env}.

Lemma index_day_start_le zone t : index_day_start zone t ≤ t.
Proof.
  destruct zone as [tz|]; simpl; [apply day_start_le|].
  apply Z.mul_div_le. done.
Qed.

Lemma index_day_start_stable zone t t' :
  index_day_start zone t ≤ t' ≤ t → index_day_start zone t' = index_day_start zone t.
Proof.
  destruct zone as [tz|]; simpl; [apply day_start_stable|].
  intros Ht'. f_equal.
  pose proof (floor_stable 0 nanos_per_day t t' eq_refl) as Hst.
  rewrite !Z.sub_0_r, Z.add_0_l in Hst. by apply Hst.
Qed.
End days.

(** ** The shape of a successful run *)

Lemma mapM_compose_Ok {A B C} (f : A → result B) (g : B → result C) l cs :
  mapM (λ a, f a ≫= g) l = Ok cs ↔ ∃ bs, mapM f l = Ok bs ∧ mapM g bs = Ok cs.
Proof.
  rewrite mapM_Ok. setoid_rewrite mapM_Ok. split.
  - induction 1 as [|a c l cs (b & Hb & Hc)%bind_Ok _ (bs & Hbs & Hcs)].
    + exists []. split; constructor.
    + exists (b :: bs). split; by constructor.
  - intros (bs & Hbs & Hcs). revert cs Hcs.
    induction Hbs as [|a b l bs Hb _ IH]; intros cs; inversion 1; subst; constructor.
    + apply bind_Ok. eauto.
    + by apply IH.
Qed.

Section run_facts.
Context `{Env}.

Lemma normalize_Ok col tz dt :
  normalize col tz = Ok dt ↔
  tz_known tz = true ∧ dt_tz dt = Some tz ∧ mapM epoch_ns col = Ok (dt_values dt).
Proof.
  unfold normalize, to_datetime. split.
  - intros (naive & (vs & Hvs & [= <-])%bind_Ok & (utc & [= <-] & Hconv)%bind_Ok)%bind_Ok.
    unfold tz_convert in Hconv. simpl in Hconv.
    destruct (tz_known tz); [|done]. by injection Hconv as <-.
  - destruct dt as [vs zone]. simpl. intros (Htz & -> & ->). simpl.
    unfold tz_convert. simpl. by rewrite Htz.
Qed.

Lemma with_instant_zip {X} (df : list (json * X)) vs :
  mapM epoch_ns (df.*1) = Ok vs → mapM with_instant df = Ok (zip vs (df.*2)).
Proof.
  rewrite !mapM_Ok. revert vs.
  induction df as [|[x y] df IH]; intros vs; inversion 1 as [|? v ? vs' Hv Hvs]; subst.
  - constructor.
  - simpl. constructor; [|by apply IH].
    unfold with_instant. simpl. by rewrite Hv.
Qed.

Lemma with_instant_unzip {X} (df : list (json * X)) df' :
  mapM with_instant df = Ok df' →
  mapM epoch_ns (df.*1) = Ok (df'.*1) ∧ zip (df'.*1) (df.*2) = df'.
Proof.
  rewrite !mapM_Ok. induction 1 as [|[x y] [t y'] df df' Hr _ [IH1 IH2]]; simpl.
  - split; [constructor | done].
  - unfold with_instant in Hr. simpl in Hr.
    apply bind_Ok in Hr as (t' & Ht & [= <- <-]).
    split; [by constructor | by f_equal].
Qed.

Lemma assign_datetime_Ok {X} (df : list (json * X)) tz zone df' :
  assign_datetime df tz = Ok (zone, df') ↔
  tz_known tz = true ∧ zone = Some tz ∧ mapM with_instant df = Ok df'.
Proof.
  unfold assign_datetime. rewrite bind_Ok. split.
  - intros (dt & (Htz & Hzone & Hvs)%normalize_Ok & [= <- <-]).
    split_and!; [done..|]. by apply with_instant_zip.
  - intros (Htz & -> & [Hvs Hzip]%with_instant_unzip).
    exists {| dt_values := df'.*1; dt_tz := Some tz |}. split.
    + by apply normalize_Ok.
    + simpl. by rewrite Hzip.
Qed.

Lemma fill_gaps_Ok idmap size width :
  to_offset size = Ok width → rows idmap ≠ [] →
  _id_to_member_mapping_fill_gaps idmap size =
    Ok {| index_tz := index_tz idmap;
          rows := filled_rows (index_tz idmap) width (rows idmap) |}.
Proof.
  unfold _id_to_member_mapping_fill_gaps. intros -> Hrows. simpl.
  by destruct (rows idmap).
Qed.

Lemma fill_gaps_empty idmap size width :
  to_offset size = Ok width → rows idmap = [] →
  _id_to_member_mapping_fill_gaps idmap size =
    Raise (Exception "Can only reorder levels on a hierarchical axis.").
Proof. unfold _id_to_member_mapping_fill_gaps. by intros -> ->. Qed.

Lemma idmap_rows_nil origin width recs : idmap_rows origin width recs = [] ↔ recs = [].
Proof.
  split; [|by intros ->].
  destruct recs as [|r recs]; [done|]. intros Hnil.
  set (df := time_grouper origin width <$> r :: recs) in *.
  assert (Hin : ((time_grouper origin width r).1,
                 first (values_of (time_grouper origin width r).1 df))
                ∈ idmap_rows origin width (r :: recs)).
  { apply elem_of_sort_index, list_elem_of_fmap.
    exists ((time_grouper origin width r).1, values_of (time_grouper origin width r).1 df).
    split; [done|]. apply elem_of_groupby. split; [|done].
    unfold df. rewrite !fmap_cons. by left. }
  rewrite Hnil in Hin. by apply elem_of_nil in Hin.
Qed.

Lemma id_to_member_mapping_Ok lines size tz fill s :
  id_to_member_mapping lines size tz fill = Ok s ↔
  ∃ recs width,
    mapM id_record lines = Ok recs ∧ tz_known tz = true ∧ to_offset size = Ok width ∧
    (fill = true → recs ≠ []) ∧
    s = {| index_tz := Some tz;
           rows := if fill
                   then filled_rows (Some tz) width
                          (idmap_rows (stream_origin tz recs) width recs)
                   else idmap_rows (stream_origin tz recs) width recs |}.
Proof.
  unfold id_to_member_mapping, id_record. setoid_rewrite mapM_compose_Ok.
  rewrite bind_Ok. split.
  - intros (df & Hdf & ([zone recs] & (Htz & -> & Hrecs)%assign_datetime_Ok
      & (width & Hw & Hs)%bind_Ok)%bind_Ok).
    exists recs, width.
    fold (stream_origin tz recs) in Hs.
    fold (idmap_rows (stream_origin tz recs) width recs) in Hs.
    destruct fill.
    + destruct (decide (recs = [])) as [->|Hne].
      { by rewrite (fill_gaps_empty _ _ _ Hw) in Hs. }
      rewrite (fill_gaps_Ok _ _ _ Hw) in Hs by (simpl; by rewrite idmap_rows_nil).
      injection Hs as <-. split_and!; by eauto.
    + injection Hs as <-. split_and!; by eauto.
  - intros (recs & width & (df & Hdf & Hrecs) & Htz & Hw & Hne & ->).
    exists df. split; [done|].
    rewrite (proj2 (assign_datetime_Ok df tz (Some tz) recs)) by done. simpl.
    rewrite Hw. simpl.
    fold (stream_origin tz recs). fold (idmap_rows (stream_origin tz recs) width recs).
    destruct fill; [|done].
    rewrite (fill_gaps_Ok _ _ _ Hw); [done|]. simpl. rewrite idmap_rows_nil. by apply Hne.
Qed.

Lemma voltages_Ok lines size tz s :
  voltages lines size tz = Ok s ↔
  ∃ recs width,
    mapM voltage_record lines = Ok recs ∧ tz_known tz = true ∧ to_offset size = Ok width ∧
    recs ≠ [] ∧
    s = {| index_tz := Some tz;
           rows := sort_index ((λ '(k, g), (k, mean g)) <$>
                     groupby (time_grouper (stream_origin tz recs) width <$>
                                (float64_column <$> recs))) |}.
Proof.
  unfold voltages, voltage_record. setoid_rewrite mapM_compose_Ok.
  rewrite bind_Ok. split.
  - intros (df & Hdf & ([zone recs] & (Htz & -> & Hrecs)%assign_datetime_Ok
      & (width & Hw & Hs)%bind_Ok)%bind_Ok).
    exists recs, width. destruct recs as [|r recs]; [done|].
    injection Hs as <-. split_and!; by eauto.
  - intros (recs & width & (df & Hdf & Hrecs) & Htz & Hw & Hne & ->).
    exists df. split; [done|].
    rewrite (proj2 (assign_datetime_Ok df tz (Some tz) recs)) by done. simpl.
    rewrite Hw. simpl. by destruct recs.
Qed.

Lemma sample_counts_Ok lines tz keep_type table :
  sample_counts lines tz keep_type = Ok table ↔
  ∃ recs,
    mapM count_record lines = Ok recs ∧ tz_known tz = true ∧
    table =
      if keep_type then
        ByTypeMember {| index_tz := Some tz;
          rows := sort_index ((λ r, ((r.1, r.2.1.1, r.2.1.2), r.2.2)) <$> recs) |}
      else
        ByMember {| index_tz := Some tz;
          rows := sort_index ((λ r, ((r.1, r.2.1.2), r.2.2)) <$> recs) |}.
Proof.
  unfold sample_counts, count_record. setoid_rewrite mapM_compose_Ok.
  rewrite bind_Ok. split.
  - intros (df & Hdf & ([zone recs] & (Htz & -> & Hrecs)%assign_datetime_Ok & Ht)%bind_Ok).
    exists recs. split_and!; [by eauto|done|].
    destruct keep_type; by injection Ht as <-.
  - intros (recs & (df & Hdf & Hrecs) & Htz & ->).
    exists df. split; [done|].
    rewrite (proj2 (assign_datetime_Ok df tz (Some tz) recs)) by done. simpl.
    by destruct keep_type.
Qed.
End run_facts.

(** ** Grouping, aggregating and sorting *)

Section aggregate_facts.
Context `{Lexico K, !StrictOrder (@lexico K _), !TrichotomyT (@lexico K _)}.
Context `{EqDecision K}.
Context {V W : Type} (agg : list V → W).

Local Abbreviation aggregated df :=
  (sort_index ((λ '(k, g), (k, agg g)) <$> groupby df)).

Lemma aggregated_keys df :
  ((λ '(k, g), (k, agg g)) <$> groupby df).*1 = (groupby df).*1.
Proof. rewrite <-list_fmap_compose. apply list_fmap_ext. by intros ? [??]. Qed.

Lemma aggregated_NoDup df : NoDup ((aggregated df).*1).
Proof. rewrite sort_index_Permutation, aggregated_keys. apply groupby_NoDup. Qed.

Lemma aggregated_Sorted df : Sorted row_lt (aggregated df).
Proof. apply sort_index_strict. rewrite aggregated_keys. apply groupby_NoDup. Qed.

Lemma elem_of_agg_groupby df k w :
  (k, w) ∈ (λ '(k, g), (k, agg g)) <$> groupby df ↔
  k ∈ df.*1 ∧ w = agg (values_of k df).
Proof.
  rewrite list_elem_of_fmap. split.
  - intros ([k' g] & [= -> ->] & [? ->]%elem_of_groupby). done.
  - intros [Hk ->]. exists (k, values_of k df). split; [done|].
    by apply elem_of_groupby.
Qed.

Lemma elem_of_aggregated df k w :
  (k, w) ∈ aggregated df ↔ k ∈ df.*1 ∧ w = agg (values_of k df).
Proof. by rewrite elem_of_sort_index, elem_of_agg_groupby. Qed.

(** A key that occurs in the frame has exactly one row in the result. *)
Lemma aggregated_row df k :
  k ∈ df.*1 → filter (λ r, r.1 = k) (aggregated df) = [(k, agg (values_of k df))].
Proof.
  intros Hk. apply filter_key_singleton; [apply aggregated_NoDup|].
  by apply elem_of_aggregated.
Qed.

Lemma aggregated_no_row df k : k ∉ df.*1 → filter (λ r, r.1 = k) (aggregated df) = [].
Proof.
  intros Hk. apply filter_none. intros [k' w] [Hin _]%elem_of_aggregated ?.
  by simplify_eq/=.
Qed.

(** The result does not depend on the order of the rows of the frame, if
    the aggregate does not depend on the order of a group. *)
Lemma aggregated_Permutation df df' :
  (∀ g g', g ≡ₚ g' → agg g = agg g') → df ≡ₚ df' → aggregated df = aggregated df'.
Proof.
  intros Hagg Hperm. apply sort_index_unique.
  - rewrite aggregated_keys. apply groupby_NoDup.
  - apply NoDup_Permutation.
    + eapply NoDup_fmap_1 with (f := fst). rewrite aggregated_keys. apply groupby_NoDup.
    + eapply NoDup_fmap_1 with (f := fst). rewrite aggregated_keys. apply groupby_NoDup.
    + intros [k w]. rewrite !elem_of_agg_groupby.
      assert (Hkeys : k ∈ df.*1 ↔ k ∈ df'.*1) by (by rewrite Hperm).
      rewrite Hkeys. split; intros [? ->]; (split; [done|]);
        apply Hagg; by apply values_of_Permutation.
Qed.
End aggregate_facts.

Lemma epoch_ns_Ok x t :
  epoch_ns x = Ok t ↔ ∃ q, x = JNum q ∧ t = (q * Qc_of_Z nanos_per_second)%Qc ∧ in_bounds t.
Proof.
  destruct x as [| |q| | |]; simpl; try (split; [done|by intros (? & [=] & _)]).
  case_decide as Hb; split.
  - intros [= <-]. by exists q.
  - by intros (? & [= <-] & -> & _).
  - done.
  - by intros (? & [= <-] & -> & ?).
Qed.

Lemma with_instant_Ok {X} (q : Qc) (x : X) r :
  with_instant (JNum q, x) = Ok r → r = ((q * Qc_of_Z nanos_per_second)%Qc, x).
Proof.
  unfold with_instant. intros (t & (q' & [= <-] & -> & _)%epoch_ns_Ok & [= <-])%bind_Ok.
  done.
Qed.

Lemma values_of_nonempty `{EqDecision K} {V} (k : K) (df : list (K * V)) :
  values_of k df ≠ [] ↔ k ∈ df.*1.
Proof.
  split.
  - intros Hne. destruct (decide (k ∈ df.*1)) as [|Hk]; [done|].
    destruct Hne. unfold values_of. rewrite filter_none; [done|].
    intros r Hr Heq. destruct Hk. apply list_elem_of_fmap. by exists r.
  - intros (r & -> & Hr)%list_elem_of_fmap Heq.
    assert (Hin : r.2 ∈ values_of r.1 df).
    { apply list_elem_of_fmap. exists r. split; [done|]. by apply list_elem_of_filter. }
    rewrite Heq in Hin. by apply elem_of_nil in Hin.
Qed.

Lemma elem_of_fst {K V} (l : list (K * V)) k : k ∈ l.*1 ↔ ∃ v, (k, v) ∈ l.
Proof.
  rewrite list_elem_of_fmap. split.
  - intros ([k' v] & -> & Hin). by exists v.
  - intros [v Hin]. by exists (k, v).
Qed.

(** ** The identity mapping *)

Section identity_facts.
Context `{Env}.

Lemma idmap_rows_NoDup origin width recs : NoDup ((idmap_rows origin width recs).*1).
Proof. apply aggregated_NoDup. Qed.

Lemma idmap_rows_Sorted origin width recs : Sorted row_lt (idmap_rows origin width recs).
Proof. apply aggregated_Sorted. Qed.

Lemma elem_of_idmap_rows origin width recs k v :
  (k, v) ∈ idmap_rows origin width recs ↔
  k ∈ (time_grouper origin width <$> recs).*1 ∧
  v = first (values_of k (time_grouper origin width <$> recs)).
Proof. apply elem_of_aggregated. Qed.

(** The first record of a key in the stream gives the key its wearer. *)
Lemma idmap_rows_first origin width rpre t d m rpost :
  (bin_from origin width t, d) ∉ (time_grouper origin width <$> rpre).*1 →
  ((bin_from origin width t, d), Some m)
    ∈ idmap_rows origin width (rpre ++ (t, (d, m)) :: rpost).
Proof.
  intros Hfresh. apply elem_of_idmap_rows. split.
  - rewrite !fmap_app, !fmap_cons. apply elem_of_app. right. by left.
  - rewrite fmap_app, values_of_app, fmap_cons.
    change (time_grouper origin width (t, (d, m))) with ((bin_from origin width t, d), m).
    by rewrite values_of_cons_eq, values_of_absent.
Qed.

(** Every row of the mapping carries a wearer, and sits on a bin start. *)
Lemma idmap_rows_value origin width recs b d v :
  ((b, d), v) ∈ idmap_rows origin width recs →
  (∃ m, v = Some m) ∧ (width | b - origin).
Proof.
  intros [Hk ->]%elem_of_idmap_rows. split.
  - apply values_of_nonempty in Hk.
    destruct (values_of _ _) as [|m g]; [done|]. by exists m.
  - apply list_elem_of_fmap in Hk as (r & Hr & Hk).
    apply list_elem_of_fmap in Hk as (rec & -> & _).
    injection Hr as -> _. apply bin_from_grid.
Qed.

Lemma idmap_rows_on_grid origin width recs :
  on_grid origin width (idmap_rows origin width recs).
Proof. intros b d v Hin. by destruct (idmap_rows_value _ _ _ _ _ _ Hin). Qed.

(** The keys of the mapping are the bins and devices of the records. *)
Lemma idmap_rows_keys origin width recs b d :
  (b, d) ∈ (idmap_rows origin width recs).*1 ↔
  ∃ t m, (t, (d, m)) ∈ recs ∧ bin_from origin width t = b.
Proof.
  rewrite elem_of_fst. setoid_rewrite elem_of_idmap_rows. split.
  - intros (v & (kr & Heq & ([t [d' m]] & -> & Hin)%list_elem_of_fmap)%list_elem_of_fmap & _).
    injection Heq as -> ->. by exists t, m.
  - intros (t & m & Hin & <-). eexists. split; [|done].
    apply list_elem_of_fmap. exists ((bin_from origin width t, d), m). split; [done|].
    apply list_elem_of_fmap. by exists (t, (d, m)).
Qed.
End identity_facts.

(** A line of a stream that decodes has its record at the same place. *)
Lemma mapM_Ok_split {A B} (f : A → result B) pre a post bs :
  mapM f (pre ++ a :: post) = Ok bs →
  ∃ bpre b bpost, bs = bpre ++ b :: bpost ∧
    Forall2 (λ a b, f a = Ok b) pre bpre ∧ f a = Ok b ∧
    Forall2 (λ a b, f a = Ok b) post bpost.
Proof.
  intros (bpre & bs' & Hpre & Hrest & ->)%mapM_Ok%Forall2_app_inv_l.
  inversion Hrest as [|? b ? bpost Hb Hpost]; subst.
  by exists bpre, b, bpost.
Qed.

(** The records of a stream are those of its lines. *)
Lemma mapM_Ok_elem_of {A B} (f : A → result B) l bs b :
  mapM f l = Ok bs → b ∈ bs ↔ ∃ a, a ∈ l ∧ f a = Ok b.
Proof.
  intros Hall%mapM_Ok. split.
  - intros Hb. destruct (proj1 (list_elem_of_lookup _ _) Hb) as [i Hi].
    destruct (Forall2_lookup_r _ _ _ _ _ Hall Hi) as (a & Ha & Hfa).
    exists a. split; [by eapply list_elem_of_lookup_2 | done].
  - intros (a & Ha & Hfa). destruct (proj1 (list_elem_of_lookup _ _) Ha) as [i Hi].
    destruct (Forall2_lookup_l _ _ _ _ _ Hall Hi) as (b' & Hb' & Hfa').
    assert (b' = b) as -> by congruence. by eapply list_elem_of_lookup_2.
Qed.

(** ** Upsampling *)

Lemma elem_of_date_range lo hi width b :
  0 < width →
  b ∈ date_range lo hi width ↔ ∃ k, 0 ≤ k ∧ b = lo + width * k ∧ width * k ≤ hi - lo.
Proof.
  intros Hw. unfold date_range. rewrite list_elem_of_fmap.
  setoid_rewrite elem_of_seqZ. split.
  - intros (k & -> & Hk). exists k. split_and!; [lia|done|].
    assert (k ≤ (hi - lo) `div` width) by lia.
    etrans; [apply Z.mul_le_mono_nonneg_l; [lia|done]|].
    apply Z.mul_div_le. lia.
  - intros (k & Hk & -> & Hle). exists k. split; [done|].
    assert (k ≤ (hi - lo) `div` width); [|lia].
    apply Z.div_le_lower_bound; lia.
Qed.

Lemma date_range_NoDup lo hi width : 0 < width → NoDup (date_range lo hi width).
Proof.
  intros Hw. unfold date_range. apply NoDup_fmap_2_strong; [|apply NoDup_seqZ].
  intros k1 k2 _ _ Heq. nia.
Qed.

Lemma foldr_min_elem t ts : foldr Z.min t ts ∈ t :: ts.
Proof.
  induction ts as [|x ts IH]; simpl; [by left|].
  destruct (Z.min_spec x (foldr Z.min t ts)) as [[_ ->]|[_ ->]].
  - right. by left.
  - apply elem_of_cons in IH as [->|?]; [by left|]. right. by right.
Qed.

Lemma foldr_min_le t ts x : x ∈ t :: ts → foldr Z.min t ts ≤ x.
Proof.
  induction ts as [|y ts IH]; simpl.
  - intros ->%list_elem_of_singleton. lia.
  - intros [->|[->|Hx]%elem_of_cons]%elem_of_cons.
    + etrans; [apply Z.le_min_r|]. apply IH. by left.
    + apply Z.le_min_l.
    + etrans; [apply Z.le_min_r|]. apply IH. by right.
Qed.

Lemma foldr_max_elem t ts : foldr Z.max t ts ∈ t :: ts.
Proof.
  induction ts as [|x ts IH]; simpl; [by left|].
  destruct (Z.max_spec x (foldr Z.max t ts)) as [[_ ->]|[_ ->]].
  - apply elem_of_cons in IH as [->|?]; [by left|]. right. by right.
  - right. by left.
Qed.

Lemma foldr_max_ge t ts x : x ∈ t :: ts → x ≤ foldr Z.max t ts.
Proof.
  induction ts as [|y ts IH]; simpl.
  - intros ->%list_elem_of_singleton. lia.
  - intros [->|[->|Hx]%elem_of_cons]%elem_of_cons.
    + etrans; [|apply Z.le_max_r]. apply IH. by left.
    + apply Z.le_max_l.
    + etrans; [|apply Z.le_max_r]. apply IH. by right.
Qed.

(** In a group with increasing labels, the row [asof] reads is the one with
    the greatest label at or before the bin. *)
Lemma asof_Some {V} (g : list (Z * option V)) b r :
  StronglySorted (λ r1 r2, r1.1 < r2.1) g →
  last (filter (λ r, r.1 ≤ b) g) = Some r →
  r ∈ g ∧ r.1 ≤ b ∧ ∀ r', r' ∈ g → r'.1 ≤ b → r'.1 ≤ r.1.
Proof.
  intros Hs Hlast.
  assert (Hr : r ∈ filter (λ r, r.1 ≤ b) g).
  { apply last_Some in Hlast as [l' ->]. apply elem_of_app. right. by left. }
  apply list_elem_of_filter in Hr as [Hrb Hrg].
  apply last_filter_Some in Hlast as (g1 & g2 & -> & Hg2).
  split_and!; [done..|]. intros r' Hr' Hr'b.
  apply StronglySorted_app in Hs as (H12 & _ & _).
  apply elem_of_app in Hr' as [Hr'|[->|Hr']%elem_of_cons].
  - apply Z.lt_le_incl, H12; [done | by left].
  - done.
  - rewrite Forall_forall in Hg2. by destruct (Hg2 _ Hr').
Qed.

Lemma asof_is_Some {V} (g : list (Z * option V)) b r :
  r ∈ g → r.1 ≤ b → is_Some (last (filter (λ r, r.1 ≤ b) g)).
Proof.
  intros Hr Hb. apply last_is_Some. intros Hnil.
  assert (Hin : r ∈ filter (λ r, r.1 ≤ b) g) by (by apply list_elem_of_filter).
  rewrite Hnil in Hin. by apply elem_of_nil in Hin.
Qed.

(** Before the first label there is nothing to read. *)
Lemma asof_None {V} (g : list (Z * option V)) b :
  (∀ r, r ∈ g → b < r.1) → asof g b = None.
Proof.
  intros Hg. unfold asof. rewrite filter_none; [done|].
  intros r Hr Hle. specialize (Hg _ Hr). lia.
Qed.

(** At a label of the group, [asof] reads the row of that label. *)
Lemma asof_here {V} (g : list (Z * option V)) b v :
  StronglySorted (λ r1 r2, r1.1 < r2.1) g → (b, v) ∈ g → asof g b = v.
Proof.
  intros Hs Hin. unfold asof.
  destruct (asof_is_Some g b _ Hin) as [r Hlast]; [done|]. rewrite Hlast.
  destruct (asof_Some _ _ _ Hs Hlast) as (Hr & Hrb & Hlatest).
  specialize (Hlatest _ Hin (Z.le_refl _)). simpl in Hlatest.
  destruct r as [b' v']. simpl in *. assert (b' = b) as -> by lia.
  clear -Hs Hin Hr. induction Hs as [|r g Hg IH Hall]; [by apply elem_of_nil in Hin|].
  rewrite Forall_forall in Hall.
  apply elem_of_cons in Hin as [<-|Hin]; apply elem_of_cons in Hr as [Hr|Hr].
  - by injection Hr.
  - specialize (Hall _ Hr). simpl in Hall. lia.
  - subst r. specialize (Hall _ Hin). simpl in Hall. lia.
  - by apply IH.
Qed.

Section resample_facts.
Context `{Env} {V : Type}.
Implicit Types (g : list (Z * option V)).

Lemma elem_of_resample_ffill zone width g t ts b v :
  g.*1 = t :: ts →
  (b, v) ∈ resample_ffill zone width g ↔
  b ∈ date_range
        (bin_from (index_day_start zone (foldr Z.min t ts)) width
           (Qc_of_Z (foldr Z.min t ts)))
        (bin_from (index_day_start zone (foldr Z.min t ts)) width
           (Qc_of_Z (foldr Z.max t ts))) width ∧
  v = asof g b.
Proof.
  intros Hg. unfold resample_ffill. rewrite Hg, list_elem_of_fmap. split.
  - by intros (b' & [= -> ->] & Hb).
  - intros [Hb ->]. by exists b.
Qed.

Lemma resample_ffill_NoDup zone width g :
  0 < width → NoDup ((resample_ffill zone width g).*1).
Proof.
  intros Hw. unfold resample_ffill. destruct (g.*1) as [|t ts]; [constructor|].
  rewrite <-list_fmap_compose, list_fmap_id. by apply date_range_NoDup.
Qed.
End resample_facts.

(** ** Filling gaps *)

Lemma fmap_bind {A B C} (f : B → C) (g : A → list B) (l : list A) :
  f <$> (l ≫= g) = l ≫= λ x, f <$> g x.
Proof. induction l as [|x l IH]; csimpl; [done|]. by rewrite fmap_app, IH. Qed.

Lemma filter_unique {A} (P : A → Prop) `{∀ x, Decision (P x)} (l : list A) x :
  NoDup l → x ∈ l → P x → (∀ y, y ∈ l → P y → y = x) → filter P l = [x].
Proof.
  intros Hnd Hx HPx Hall.
  assert (Hin : x ∈ filter P l) by (by apply list_elem_of_filter).
  assert (Heq : ∀ y, y ∈ filter P l → y = x).
  { intros y [??]%list_elem_of_filter. by apply Hall. }
  apply (NoDup_filter P) in Hnd.
  destruct (filter P l) as [|y1 [|y2 l']].
  - by apply elem_of_nil in Hin.
  - f_equal. apply Heq. by left.
  - assert (y1 = x) as -> by (apply Heq; by left).
    assert (y2 = x) as -> by (apply Heq; right; by left).
    apply NoDup_cons in Hnd as [Hnin _]. destruct Hnin. by left.
Qed.

Lemma StronglySorted_weaken {A} (R1 R2 : relation A) (l : list A) :
  (∀ x y, R1 x y → R2 x y) → StronglySorted R1 l → StronglySorted R2 l.
Proof.
  intros HR. induction 1 as [|x l Hl IH Hx]; constructor; [done|].
  eapply Forall_impl; [done|]. intros y. apply HR.
Qed.

(** Two tables in strict key order with the same rows are the same table. *)
Lemma Sorted_row_lt_unique `{Lexico K, !StrictOrder (@lexico K _),
    !TrichotomyT (@lexico K _)} {V} (l1 l2 : list (K * V)) :
  Sorted row_lt l1 → Sorted row_lt l2 → (∀ r, r ∈ l1 ↔ r ∈ l2) → l1 = l2.
Proof.
  intros Hs1 Hs2 Heq.
  apply Sorted_StronglySorted in Hs1; [|apply _].
  apply Sorted_StronglySorted in Hs2; [|apply _].
  pose proof (row_lt_NoDup _ Hs1) as Hnd1. pose proof (row_lt_NoDup _ Hs2) as Hnd2.
  apply (StronglySorted_unique_strong row_le).
  - intros [k1 v1] [k2 v2] H1 H2 H12 H21.
    assert (k1 = k2) as -> by (by apply (anti_symm index_le)).
    f_equal. by eapply (NoDup_fst_agree l1); [|done|apply Heq].
  - by apply (StronglySorted_weaken row_lt); [intros ?? Hlt; by left|].
  - by apply (StronglySorted_weaken row_lt); [intros ?? Hlt; by left|].
  - apply NoDup_Permutation; [by eapply NoDup_fmap_1 with (f := fst)..|done].
Qed.

Section filled_facts.
Context `{Env}.
Context (zone : option string) (width : Z) (idmap : list (Z * Z * option string)).

Local Abbreviation by_id := ((λ r : Z * Z * option string, (r.1.2, (r.1.1, r.2))) <$> idmap).

Lemma elem_of_by_id d t v : (t, v) ∈ values_of d by_id ↔ ((t, d), v) ∈ idmap.
Proof.
  unfold values_of. rewrite list_elem_of_fmap. split.
  - intros ([d' [t' v']] & [= <- <-] & [Hd Hin]%list_elem_of_filter).
    simpl in Hd. subst d'.
    apply list_elem_of_fmap in Hin as ([[t' d'] v'] & [= -> -> ->] & Hin). done.
  - intros Hin. exists (d, (t, v)). split; [done|].
    apply list_elem_of_filter. split; [done|].
    apply list_elem_of_fmap. by exists ((t, d), v).
Qed.

Lemma by_id_keys d : d ∈ by_id.*1 ↔ ∃ t v, ((t, d), v) ∈ idmap.
Proof.
  rewrite <-list_fmap_compose, list_elem_of_fmap. split.
  - intros ([[t d'] v] & -> & Hin). by exists t, v.
  - intros (t & v & Hin). by exists ((t, d), v).
Qed.

Lemma by_id_sorted d :
  Sorted row_lt idmap → StronglySorted (λ r1 r2, r1.1 < r2.1) (values_of d by_id).
Proof.
  intros Hs. apply Sorted_StronglySorted in Hs; [|apply _].
  revert Hs. clear. induction 1 as [|[[t d'] v] l Hl IH Hr].
  - constructor.
  - rewrite fmap_cons. unfold values_of. rewrite filter_cons. simpl.
    fold (values_of d ((λ r : Z * Z * option string, (r.1.2, (r.1.1, r.2))) <$> l)).
    case_decide as Hd; [|done]. subst d'. simpl. constructor; [done|].
    apply Forall_forall. intros [t' v'] Hin.
    assert (Hin' : ((t', d), v') ∈ l).
    { revert Hin. clear. unfold values_of. rewrite list_elem_of_fmap.
      intros ([d' [t v]] & [= <- <-] & [Hd Hin]%list_elem_of_filter).
      simpl in Hd. subst d'.
      apply list_elem_of_fmap in Hin as ([[t0 d0] v0] & [= -> -> ->] & Hin). done. }
    rewrite Forall_forall in Hr. specialize (Hr _ Hin').
    destruct Hr as [Hlt|[_ Hlt]]; simpl in *; [done|].
    by destruct (irreflexivity lexico d).
Qed.

Lemma elem_of_filled_rows b d v :
  ((b, d), v) ∈ filled_rows zone width idmap ↔
  d ∈ by_id.*1 ∧ (b, v) ∈ resample_ffill zone width (values_of d by_id).
Proof.
  unfold filled_rows. rewrite elem_of_sort_index, list_elem_of_fmap. split.
  - intros ([[d' b'] v'] & [= -> -> ->] & Hin).
    apply list_elem_of_bind in Hin as ([i g] & Hin & [Hi ->]%elem_of_groupby).
    apply list_elem_of_fmap in Hin as ([b0 v0] & [= -> -> ->] & Hin). done.
  - intros [Hd Hin]. exists ((d, b), v). split; [done|].
    apply list_elem_of_bind. exists (d, values_of d by_id). split.
    + apply list_elem_of_fmap. by exists (b, v).
    + by apply elem_of_groupby.
Qed.

Lemma filled_rows_NoDup : 0 < width → NoDup ((filled_rows zone width idmap).*1).
Proof.
  intros Hw. unfold filled_rows. rewrite sort_index_Permutation.
  rewrite <-list_fmap_compose.
  apply (NoDup_fmap_1 (λ k : Z * Z, (k.2, k.1))). rewrite <-list_fmap_compose.
  rewrite (list_fmap_ext _ fst) by (by intros ? [[??]?] ?).
  rewrite fmap_bind. apply NoDup_bind.
  - intros [i1 g1] [i2 g2] [i b] [_ ->]%elem_of_groupby [_ ->]%elem_of_groupby.
    rewrite <-!list_fmap_compose.
    intros (? & [= -> _] & _)%list_elem_of_fmap (? & [= -> _] & _)%list_elem_of_fmap.
    done.
  - intros [i g] _. rewrite <-list_fmap_compose.
    apply (NoDup_fmap_1 snd). rewrite <-list_fmap_compose.
    by apply resample_ffill_NoDup.
  - apply NoDup_fmap_1 with (f := fst). apply groupby_NoDup.
Qed.

Lemma filled_rows_Sorted : 0 < width → Sorted row_lt (filled_rows zone width idmap).
Proof.
  intros Hnd%filled_rows_NoDup. unfold filled_rows in *.
  apply sort_index_strict. by rewrite sort_index_Permutation in Hnd.
Qed.
End filled_facts.

(** ** The rows of a device after gap filling *)

Section filled_range.
Context `{Env}.
Context (zone : option string) (width : Z) (idmap : list (Z * Z * option string)).
Hypothesis Hwidth : 0 < width.
Hypothesis Hsorted : Sorted row_lt idmap.

Local Abbreviation group d :=
  (values_of d ((λ r : Z * Z * option string, (r.1.2, (r.1.1, r.2))) <$> idmap)).

(** The start of the bin of a label, the bins counted from [o]. *)
Local Abbreviation floor_to o x := (o + width * ((x - o) `div` width)).

Lemma idmap_NoDup_keys : NoDup (idmap.*1).
Proof. apply row_lt_NoDup, Sorted_StronglySorted; [apply _|done]. Qed.

Lemma group_labels d t : t ∈ (group d).*1 ↔ (t, d) ∈ idmap.*1.
Proof. rewrite !elem_of_fst. by setoid_rewrite elem_of_by_id. Qed.

Lemma group_sorted d : StronglySorted (λ r1 r2, r1.1 < r2.1) (group d).
Proof. by apply by_id_sorted. Qed.

(** A device with a row has a first and a last bin. *)
Lemma device_range_exists d t v :
  ((t, d), v) ∈ idmap → ∃ lo hi, device_range idmap d lo hi.
Proof.
  intros Hin. destruct ((group d).*1) as [|t0 ts] eqn:Hts.
  { assert (Ht : t ∈ (group d).*1) by (apply group_labels, elem_of_fst; eauto).
    rewrite Hts in Ht. by apply elem_of_nil in Ht. }
  exists (foldr Z.min t0 ts), (foldr Z.max t0 ts). split_and!.
  - apply group_labels. rewrite Hts. apply foldr_min_elem.
  - apply group_labels. rewrite Hts. apply foldr_max_elem.
  - intros b Hb%group_labels. rewrite Hts in Hb.
    split; [by apply foldr_min_le | by apply foldr_max_ge].
Qed.

Lemma device_range_labels d lo hi t ts :
  device_range idmap d lo hi → (group d).*1 = t :: ts →
  foldr Z.min t ts = lo ∧ foldr Z.max t ts = hi.
Proof.
  intros (Hlo & Hhi & Hrange) Hts. split; apply Z.le_antisymm.
  - apply foldr_min_le. rewrite <-Hts. by apply group_labels.
  - apply Hrange, group_labels. rewrite Hts. apply foldr_min_elem.
  - apply Hrange, group_labels. rewrite Hts. apply foldr_max_elem.
  - apply foldr_max_ge. rewrite <-Hts. by apply group_labels.
Qed.

Lemma device_range_le d lo hi : device_range idmap d lo hi → lo ≤ hi.
Proof. intros (Hlo & _ & Hrange). by destruct (Hrange _ Hlo). Qed.

(** A row of the filled mapping belongs to a device the mapping knows. *)
Lemma filled_rows_device b d v :
  ((b, d), v) ∈ filled_rows zone width idmap → ∃ lo hi, device_range idmap d lo hi.
Proof.
  intros [(t & v' & Hin)%by_id_keys _]%elem_of_filled_rows.
  by eapply device_range_exists.
Qed.

Lemma floor_to_le o x : floor_to o x ≤ x.
Proof. pose proof (Z.mul_div_le (x - o) width Hwidth). lia. Qed.

Lemma floor_to_mono o x y : x ≤ y → floor_to o x ≤ floor_to o y.
Proof.
  intros Hxy. apply Z.add_le_mono_l, Z.mul_le_mono_nonneg_l; [lia|].
  apply Z.div_le_mono; lia.
Qed.

Lemma floor_to_on_grid o x : (width | x - o) → floor_to o x = x.
Proof. intros [k Hk]. rewrite Hk, Z.div_mul by lia. lia. Qed.

Lemma floor_to_floor o x : floor_to o (floor_to o x) = floor_to o x.
Proof. apply floor_to_on_grid. eexists. by rewrite Z.add_simpl_l, Z.mul_comm. Qed.

(** The rows gap filling gives a device.  The bins are counted from the
    midnight of the day of the device's first bin; there is a row for each
    from the one that holds the device's first bin to the one that holds its
    last, with the value of the latest row of the device at or before the
    start of the bin. *)
Lemma elem_of_filled_rows_device d lo hi b v :
  device_range idmap d lo hi →
  ((b, d), v) ∈ filled_rows zone width idmap ↔
  floor_to (index_day_start zone lo) lo ≤ b ≤ floor_to (index_day_start zone lo) hi ∧
  (width | b - index_day_start zone lo) ∧
  v = asof (group d) b.
Proof.
  intros Hrange. pose proof Hrange as (Hlo & Hhi & Hbounds).
  pose proof (device_range_le _ _ _ Hrange) as Hle.
  rewrite elem_of_filled_rows.
  destruct ((group d).*1) as [|t ts] eqn:Hts.
  { apply group_labels in Hlo. rewrite Hts in Hlo. by apply elem_of_nil in Hlo. }
  destruct (device_range_labels _ _ _ _ _ Hrange Hts) as [Hmin Hmax].
  rewrite (elem_of_resample_ffill _ _ _ _ _ _ _ Hts), Hmin, Hmax.
  rewrite !bin_from_Z, elem_of_date_range by done.
  set (o := index_day_start zone lo).
  pose proof (floor_to_mono o _ _ Hle) as Hmono.
  split.
  - intros (_ & (k & Hk & -> & Hkle) & ->).
    assert (0 ≤ width * k) by nia. split_and!; [lia|lia| |done].
    exists ((lo - o) `div` width + k). lia.
  - intros ([Hb1 Hb2] & [j Hj] & ->). split_and!; [|by exists (j - (lo - o) `div` width); nia|done].
    apply elem_of_fst in Hlo as [vlo Hlo]. apply by_id_keys. eauto.
Qed.

(** What [asof] reads in the rows of a device. *)
Lemma asof_group d lo hi b v :
  device_range idmap d lo hi →
  v = asof (group d) b ↔
  (b < lo ∧ v = None) ∨
  ∃ b0, b0 ≤ b ∧ ((b0, d), v) ∈ idmap ∧ ∀ b', b0 < b' ≤ b → (b', d) ∉ idmap.*1.
Proof.
  intros Hrange. pose proof Hrange as (Hlo & Hhi & Hbounds).
  pose proof (group_sorted d) as Hs.
  destruct (decide (b < lo)) as [Hlt|Hge].
  - rewrite asof_None.
    2:{ intros [t v'] Hin. simpl. apply elem_of_by_id in Hin.
        assert (lo ≤ t); [|lia]. apply Hbounds, elem_of_fst. eauto. }
    split; [by left|]. intros [[_ ->]|(b0 & Hb0 & Hin & _)]; [done|].
    assert (lo ≤ b0); [|lia]. apply Hbounds, elem_of_fst. eauto.
  - apply elem_of_fst in Hlo as [vlo Hlo].
    destruct (asof_is_Some (group d) b (lo, vlo)) as [[b1 v1] Hlast];
      [by apply elem_of_by_id | simpl; lia |].
    destruct (asof_Some _ _ _ Hs Hlast) as (Hin1 & Hb1 & Hlatest). simpl in *.
    unfold asof. rewrite Hlast. simpl. apply elem_of_by_id in Hin1. split.
    + intros ->. right. exists b1. split_and!; [done..|].
      intros b' [Hb'1 Hb'2] [v' Hin']%elem_of_fst.
      apply elem_of_by_id in Hin'. specialize (Hlatest _ Hin' Hb'2). simpl in Hlatest. lia.
    + intros [[? _]|(b0 & Hb0 & Hin & Hnone)]; [lia|].
      assert (b1 = b0) as ->.
      { apply Z.le_antisymm.
        - destruct (decide (b1 ≤ b0)) as [|Hgt]; [done|].
          destruct (Hnone b1); [lia|]. apply elem_of_fst. eauto.
        - apply (Hlatest (b0, v)); [by apply elem_of_by_id | done]. }
      eapply (NoDup_fst_agree idmap); [apply idmap_NoDup_keys|done..].
Qed.

(** The bins of a device after gap filling. *)
Lemma filled_rows_bins d lo hi :
  device_range idmap d lo hi →
  (λ r : Z * Z * option string, r.1.1) <$>
    filter (λ r, r.1.2 = d) (filled_rows zone width idmap)
  ≡ₚ date_range (floor_to (index_day_start zone lo) lo)
                (floor_to (index_day_start zone lo) hi) width.
Proof.
  intros Hrange.
  pose proof (filled_rows_NoDup zone width idmap Hwidth) as Hnd.
  pose proof (floor_to_mono (index_day_start zone lo) _ _ (device_range_le _ _ _ Hrange)).
  apply NoDup_Permutation.
  - apply NoDup_fmap_2_strong.
    + intros [[b1 d1] v1] [[b2 d2] v2] [Hd1 H1]%list_elem_of_filter
        [Hd2 H2]%list_elem_of_filter Heq. simpl in *. subst.
      f_equal. by eapply (NoDup_fst_agree (filled_rows zone width idmap)).
    + apply NoDup_filter. by eapply NoDup_fmap_1 with (f := fst).
  - by apply date_range_NoDup.
  - intros b. rewrite list_elem_of_fmap, elem_of_date_range by done. split.
    + intros ([[b' d'] v] & -> & [Hd Hin]%list_elem_of_filter). simpl in *. subst d'.
      destruct (proj1 (elem_of_filled_rows_device _ _ _ _ _ Hrange) Hin)
        as ([? ?] & [j Hj] & _).
      exists (j - (lo - index_day_start zone lo) `div` width).
      assert ((lo - index_day_start zone lo) `div` width ≤ j) by nia. lia.
    + intros (k & Hk & -> & Hle).
      assert (0 ≤ width * k) by nia.
      set (b := floor_to (index_day_start zone lo) lo + width * k).
      exists (b, d, asof (group d) b). split; [done|]. apply list_elem_of_filter.
      split; [done|]. unfold b.
      apply (elem_of_filled_rows_device _ _ _ _ _ Hrange). split_and!; [lia|lia| |done].
      exists ((lo - index_day_start zone lo) `div` width + k). lia.
Qed.

(** The first and the last bin of a device after gap filling. *)
Lemma filled_rows_range d lo hi :
  device_range idmap d lo hi →
  device_range (filled_rows zone width idmap) d
    (floor_to (index_day_start zone lo) lo) (floor_to (index_day_start zone lo) hi).
Proof.
  intros Hrange.
  pose proof (floor_to_mono (index_day_start zone lo) _ _ (device_range_le _ _ _ Hrange)).
  split_and!.
  - apply elem_of_fst. eexists.
    apply (elem_of_filled_rows_device _ _ _ _ _ Hrange). split_and!; [lia|lia| |done].
    by eexists; rewrite Z.add_simpl_l, Z.mul_comm.
  - apply elem_of_fst. eexists.
    apply (elem_of_filled_rows_device _ _ _ _ _ Hrange). split_and!; [lia|lia| |done].
    by eexists; rewrite Z.add_simpl_l, Z.mul_comm.
  - intros b [v Hin]%elem_of_fst.
    by destruct (proj1 (elem_of_filled_rows_device _ _ _ _ _ Hrange) Hin) as (? & _).
Qed.
End filled_range.

(** Where the bins of a device are counted from does not change when its
    gaps are filled: its first bin stays in the same day. *)
Lemma filled_rows_same_day `{Env} zone width lo :
  0 < width →
  index_day_start zone
    (index_day_start zone lo + width * ((lo - index_day_start zone lo) `div` width)) =
  index_day_start zone lo.
Proof.
  intros Hw. apply index_day_start_stable.
  pose proof (index_day_start_le zone lo).
  pose proof (Z.mul_div_le (lo - index_day_start zone lo) width Hw).
  assert (0 ≤ (lo - index_day_start zone lo) `div` width) by (apply Z.div_pos; lia).
  nia.
Qed.

(** Filling the gaps of a mapping whose gaps are filled changes nothing. *)
Lemma filled_rows_idem `{Env} zone width idmap :
  0 < width → Sorted row_lt idmap →
  filled_rows zone width (filled_rows zone width idmap) = filled_rows zone width idmap.
Proof.
  intros Hw Hs.
  pose proof (filled_rows_Sorted zone width idmap Hw) as Hsf.
  apply Sorted_row_lt_unique; [by apply filled_rows_Sorted | done |].
  intros [[b d] v].
  assert (Hdev : (∃ lo hi, device_range (filled_rows zone width idmap) d lo hi) ↔
                 (∃ lo hi, device_range idmap d lo hi)).
  { split.
    - intros (lo' & _ & [v' Hin]%elem_of_fst & _). by eapply filled_rows_device.
    - intros (lo & hi & Hrange). do 2 eexists. by apply filled_rows_range. }
  split.
  - intros Hin.
    destruct (proj1 Hdev (filled_rows_device _ _ _ _ _ _ Hin)) as (lo & hi & Hrange).
    pose proof (filled_rows_range zone width idmap Hw _ _ _ Hrange) as Hrange'.
    apply (elem_of_filled_rows_device _ _ _ Hw _ _ _ _ _ Hrange') in Hin.
    rewrite filled_rows_same_day in Hin by done.
    destruct Hin as ([Hb1 Hb2] & Hdiv & ->).
    rewrite !floor_to_floor in Hb1, Hb2 by done.
    assert (Hrow : ∃ v, ((b, d), v) ∈ filled_rows zone width idmap).
    { eexists. by apply (elem_of_filled_rows_device _ _ _ Hw _ _ _ _ _ Hrange). }
    destruct Hrow as [v Hrow].
    rewrite (asof_here _ b v); [done|by apply group_sorted|by apply elem_of_by_id].
  - intros Hin.
    destruct (filled_rows_device _ _ _ _ _ _ Hin) as (lo & hi & Hrange).
    pose proof (filled_rows_range zone width idmap Hw _ _ _ Hrange) as Hrange'.
    apply (elem_of_filled_rows_device _ _ _ Hw _ _ _ _ _ Hrange').
    rewrite filled_rows_same_day by done.
    pose proof (proj1 (elem_of_filled_rows_device _ _ _ Hw _ _ _ _ _ Hrange) Hin)
      as ([Hb1 Hb2] & Hdiv & _).
    rewrite !floor_to_floor by done.
    split_and!; [done..|].
    symmetry. apply asof_here; [by apply group_sorted|by apply elem_of_by_id].
Qed.

(** ** Gap filling when the bins of every device are those of the stream *)

Section filled_aligned.
Context `{Env}.
Context (zone : option string) (origin width : Z) (idmap : list (Z * Z * option string)).
Hypothesis Hwidth : 0 < width.
Hypothesis Hsorted : Sorted row_lt idmap.
Hypothesis Hgrid : on_grid origin width idmap.
Hypothesis Haligned : ∀ t, (width | index_day_start zone t - origin).

Lemma device_range_grid d lo hi :
  device_range idmap d lo hi →
  (width | lo - index_day_start zone lo) ∧ (width | hi - index_day_start zone lo).
Proof.
  intros (Hlo & Hhi & _).
  apply elem_of_fst in Hlo as [vlo Hlo], Hhi as [vhi Hhi].
  destruct (Hgrid _ _ _ Hlo) as [jlo Hjlo], (Hgrid _ _ _ Hhi) as [jhi Hjhi].
  destruct (Haligned lo) as [jo Hjo].
  split; [exists (jlo - jo) | exists (jhi - jo)]; lia.
Qed.

Lemma aligned_divide lo b :
  (width | b - index_day_start zone lo) ↔ (width | b - origin).
Proof.
  destruct (Haligned lo) as [jo Hjo]. split; intros [j Hj].
  - exists (j + jo). lia.
  - exists (j - jo). lia.
Qed.

(** The rows gap filling gives a device: one for each bin start from its
    first bin to its last, with the value of the latest row at or before
    that bin. *)
Lemma elem_of_filled_rows_range d lo hi b v :
  device_range idmap d lo hi →
  ((b, d), v) ∈ filled_rows zone width idmap ↔
  lo ≤ b ≤ hi ∧ (width | b - origin) ∧
  ∃ b0, b0 ≤ b ∧ ((b0, d), v) ∈ idmap ∧ ∀ b', b0 < b' ≤ b → (b', d) ∉ idmap.*1.
Proof.
  intros Hrange.
  destruct (device_range_grid _ _ _ Hrange) as [Hglo Hghi].
  rewrite (elem_of_filled_rows_device _ _ _ Hwidth _ _ _ _ _ Hrange).
  rewrite !floor_to_on_grid by done.
  rewrite (aligned_divide lo), (asof_group _ Hsorted _ _ _ _ _ Hrange).
  split.
  - intros (Hb & Hdiv & [[? _]|Hv]); [lia|auto].
  - intros (Hb & Hdiv & Hv). auto.
Qed.

(** Every bin start in the range of a device has a row after gap filling. *)
Lemma filled_rows_total d lo hi b :
  device_range idmap d lo hi → lo ≤ b ≤ hi → (width | b - origin) →
  ∃ v, ((b, d), v) ∈ filled_rows zone width idmap.
Proof.
  intros Hrange Hb Hdiv. destruct (device_range_grid _ _ _ Hrange) as [Hglo Hghi].
  eexists. apply (elem_of_filled_rows_device _ _ _ Hwidth _ _ _ _ _ Hrange).
  rewrite !floor_to_on_grid by done. split_and!; [lia|lia| |done].
  by apply aligned_divide.
Qed.

(** Gap filling keeps the rows there are. *)
Lemma filled_rows_keeps b d v :
  ((b, d), v) ∈ idmap → ((b, d), v) ∈ filled_rows zone width idmap.
Proof.
  intros Hin. destruct (device_range_exists _ _ _ _ Hin) as (lo & hi & Hrange).
  apply (elem_of_filled_rows_range _ _ _ _ _ Hrange).
  pose proof Hrange as (_ & _ & Hbounds).
  split; [|split].
  - apply Hbounds, elem_of_fst. eauto.
  - by eapply Hgrid.
  - exists b. split_and!; [done..|]. intros b' ?. lia.
Qed.

(** A mapping without gaps is left as it is. *)
Lemma filled_rows_contiguous_id :
  contiguous width idmap → filled_rows zone width idmap = idmap.
Proof.
  intros Hcont.
  apply Sorted_row_lt_unique; [by apply filled_rows_Sorted | done |].
  intros [[b d] v]. split; [|apply filled_rows_keeps].
  intros H1. destruct (filled_rows_device _ _ _ _ _ _ H1) as (lo & hi & Hrange).
  destruct (proj1 (elem_of_filled_rows_range _ _ _ _ _ Hrange) H1)
    as (Hb & Hdiv & b0 & Hb0 & Hin & Hnone).
  assert (b0 = b) as ->; [|done].
  destruct (decide (b0 = b)) as [|Hne]; [done|].
  destruct (Hnone b); [lia|]. eapply Hcont; [done..|].
  destruct (device_range_grid _ _ _ Hrange) as [Hglo _].
  apply (aligned_divide lo) in Hdiv.
  destruct Hdiv as [j Hj], Hglo as [k Hk]. exists (j - k). lia.
Qed.
End filled_aligned.

(** ** The two runs of the identity mapping *)

Section fill_gaps_runs.
Context `{Env}.

Lemma stream_origin_day {X} tz (recs : list (Qc * X)) :
  recs ≠ [] → ∃ t, stream_origin tz recs = day_start tz t.
Proof. destruct recs as [|[t x] recs]; [done|]. intros _. by eexists. Qed.

Lemma grid_aligned_index {X} tz width (recs : list (Qc * X)) :
  grid_aligned tz width → recs ≠ [] →
  ∀ t, (width | index_day_start (Some tz) t - stream_origin tz recs).
Proof. intros Hal [t0 ->]%(stream_origin_day tz) t. apply Hal. Qed.

(** The two runs of one stream, without and with gap filling. *)
Lemma id_to_member_mapping_both lines size tz s0 s1 width :
  id_to_member_mapping lines size tz false = Ok s0 →
  id_to_member_mapping lines size tz true = Ok s1 →
  to_offset size = Ok width →
  ∃ recs, mapM id_record lines = Ok recs ∧ recs ≠ [] ∧ 0 < width ∧
    rows s0 = idmap_rows (stream_origin tz recs) width recs ∧
    rows s1 = filled_rows (Some tz) width (rows s0) ∧
    index_tz s0 = Some tz ∧ index_tz s1 = Some tz.
Proof.
  intros (recs & w0 & Hrecs & _ & Hw0 & _ & ->)%id_to_member_mapping_Ok.
  intros (recs' & w1 & Hrecs' & _ & Hw1 & Hne & ->)%id_to_member_mapping_Ok Hw.
  assert (recs' = recs) as -> by congruence.
  assert (w0 = width) as -> by congruence.
  assert (w1 = width) as -> by congruence.
  exists recs. split_and!; [done|by apply Hne|by eapply to_offset_pos|done..].
Qed.

(** Without gap filling, the first record of a key gives the key its
    row. *)
Lemma id_to_member_mapping_first_row lines size tz s width recs pre line post t d m :
  id_to_member_mapping lines size tz false = Ok s →
  to_offset size = Ok width →
  mapM id_record lines = Ok recs →
  lines = pre ++ line :: post →
  id_record line = Ok (t, (d, m)) →
  (∀ line' t' m', line' ∈ pre → id_record line' = Ok (t', (d, m')) →
     bin_from (stream_origin tz recs) width t' ≠ bin_from (stream_origin tz recs) width t) →
  ((bin_from (stream_origin tz recs) width t, d), Some m) ∈ rows s.
Proof.
  intros (recs' & width' & Hrecs' & _ & Hw & _ & ->)%id_to_member_mapping_Ok Hw' Hrecs
    -> Hline Hpre.
  assert (recs' = recs) as -> by congruence.
  assert (width' = width) as -> by congruence. simpl.
  set (origin := stream_origin tz recs) in *. clearbody origin.
  apply mapM_Ok_split in Hrecs as (rpre & r & rpost & -> & Hrpre & Hr & _).
  assert (r = (t, (d, m))) as -> by congruence.
  apply idmap_rows_first.
  intros (kr & Heq & ([t' [d' m']] & -> & Hin)%list_elem_of_fmap)%list_elem_of_fmap.
  injection Heq as Hbin ->.
  destruct (proj1 (list_elem_of_lookup _ _) Hin) as [i Hi].
  destruct (Forall2_lookup_r _ _ _ _ _ Hrpre Hi) as (line' & Hl' & Hrec).
  eapply Hpre; [by eapply list_elem_of_lookup_2 | done | done].
Qed.
End fill_gaps_runs.

(** ** Gap filling on a second day *)

(** C1: with bins of seven minutes and a device first seen on the second day
    of the stream, gap filling does not cover the bins between the first and
    the last observed bin of the device.  The device is observed in the bins
    that start at 18540 s ("A") and at 19800 s ("B"); filled, it has rows at
    18420 s, 18840 s, 19260 s and 19680 s: no row at either observed bin nor
    at the two bins between them, a first row without a wearer, and no row
    with "B". *)
Theorem fill_gaps_regrids_each_device :
  @id_to_member_mapping example_env two_day_stream "7min" default_tz false =
    Ok {| index_tz := Some default_tz;
          rows := [((900000000000, 2), Some "Z"%string);
                   ((18540000000000, 1), Some "A"%string);
                   ((19800000000000, 1), Some "B"%string)] |} ∧
  @id_to_member_mapping example_env two_day_stream "7min" default_tz true =
    Ok {| index_tz := Some default_tz;
          rows := [((900000000000, 2), Some "Z"%string);
                   ((18420000000000, 1), None);
                   ((18840000000000, 1), Some "A"%string);
                   ((19260000000000, 1), Some "A"%string);
                   ((19680000000000, 1), Some "A"%string)] |}.
Proof. split; vm_compute; reflexivity. Qed.

(** C2: with bins of seven minutes and a device first seen on the second day
    of the stream, the wearer of the first record of a (bin, device) is not
    what the gap-filled mapping reports: the records "A" then "B" of the
    device fall in the bin that starts at 18540 s, the mapping without gap
    filling reports "A" there, and the gap-filled mapping has no row for
    that bin and no row with "A". *)
Theorem gap_filling_loses_the_first_wearer :
  @id_to_member_mapping example_env two_day_tie_stream "7min" default_tz false =
    Ok {| index_tz := Some default_tz;
          rows := [((900000000000, 2), Some "Z"%string);
                   ((18540000000000, 1), Some "A"%string)] |} ∧
  @id_to_member_mapping example_env two_day_tie_stream "7min" default_tz true =
    Ok {| index_tz := Some default_tz;
          rows := [((900000000000, 2), Some "Z"%string);
                   ((18420000000000, 1), None)] |}.
Proof. split; vm_compute; reflexivity. Qed.

(** C9: with bins of seven minutes, a device seen in one bin only, on the
    second day of the stream, has one row with gap filling as without, but
    the gap-filled row is not the observed one: it sits on a bin start
    before the device was seen and carries no wearer. *)
Theorem single_bin_device_filled_from_nothing :
  @id_to_member_mapping example_env two_day_single_stream "7min" default_tz false =
    Ok {| index_tz := Some default_tz;
          rows := [((900000000000, 2), Some "Z"%string);
                   ((18540000000000, 1), Some "A"%string)] |} ∧
  @id_to_member_mapping example_env two_day_single_stream "7min" default_tz true =
    Ok {| index_tz := Some default_tz;
          rows := [((900000000000, 2), Some "Z"%string);
                   ((18420000000000, 1), None)] |}.
Proof. split; vm_compute; reflexivity. Qed.

(** ** Voltages *)

Lemma readings_values_of `{Env} origin width k lines recs :
  mapM voltage_record lines = Ok recs →
  readings origin width k lines =
    values_of k (time_grouper origin width <$> (float64_column <$> recs)).
Proof.
  rewrite mapM_Ok. unfold readings.
  induction 1 as [|line [t [m v]] lines recs Hr _ IH]; [done|].
  csimpl. rewrite Hr, IH. unfold values_of. rewrite filter_cons. simpl.
  by case_decide.
Qed.

(** C6, as stated, fails: the mean is computed in binary64, where the order
    of the additions shows.  The readings 0.1, 0.2 and 0.3 of one wearer in
    one bin have the mean 0.20000000000000004 in that order and
    0.19999999999999998 in the reverse order. *)
Lemma voltages_mean_depends_on_order :
  three_readings ≡ₚ three_readings_reversed ∧
  @voltages example_env three_readings default_time_bins_size default_tz =
    Ok {| index_tz := Some default_tz;
          rows := [((960000000000, "W"%string), 0.20000000000000004%float)] |} ∧
  @voltages example_env three_readings_reversed default_time_bins_size default_tz =
    Ok {| index_tz := Some default_tz;
          rows := [((960000000000, "W"%string), 0.19999999999999998%float)] |} ∧
  0.20000000000000004%float ≠ 0.19999999999999998%float.
Proof.
  split_and!.
  - apply Permutation_rev.
  - vm_compute. reflexivity.
  - vm_compute. reflexivity.
  - intros Heq. apply (f_equal (λ x, PrimFloat.eqb x 0.19999999999999998)) in Heq.
    vm_compute in Heq. discriminate.
Qed.

(** C6, amended: [voltages] has, for each (bin, wearer) with readings, one
    row; it carries the binary64 mean of those readings, which are added up
    from zero in the order of the stream and divided by their number.  Keys
    without readings have no row.  The bins are counted from the local
    midnight of the first day of the stream; the timestamps are whole counts
    of nanoseconds that binary64 holds as they are. *)
Theorem voltages_group_mean `{Env} lines size tz s width recs k :
  voltages lines size tz = Ok s →
  to_offset size = Ok width →
  mapM voltage_record lines = Ok recs →
  exact_instants recs →
  match readings (stream_origin tz recs) width k lines with
  | [] => filter (λ r, r.1 = k) (rows s) = []
  | x :: g =>
      filter (λ r, r.1 = k) (rows s) = [(k, mean (x :: g))] ∧
      mean (x :: g) =
        PrimFloat.div (foldl PrimFloat.add PrimFloat.zero (x :: g))
          (PrimFloat.of_uint63 (Uint63.of_Z (Z.of_nat (length (x :: g)))))
  end.
Proof.
  intros (recs' & width' & Hrecs' & Htz & Hw' & _ & ->)%voltages_Ok Hw Hrecs _.
  assert (recs' = recs) as -> by congruence.
  assert (width' = width) as -> by congruence. simpl.
  rewrite (readings_values_of _ _ _ _ _ Hrecs).
  destruct (values_of k _) as [|x g] eqn:Hg.
  - apply aggregated_no_row. intros Hk%values_of_nonempty. by rewrite Hg in Hk.
  - split; [|done]. rewrite <-Hg. apply aggregated_row.
    apply values_of_nonempty. by rewrite Hg.
Qed.

(** Readings 3.0 and 5.0 of one wearer in one bin: the mean is 4.0.  One
    reading of 3.3: the mean is that reading. *)
Lemma voltages_group_mean_witness :
  (∃ s, @voltages example_env [voltage_line 1000 "W" 3; voltage_line 1010 "W" 5]
          default_time_bins_size default_tz = Ok s ∧
        filter (λ r, r.1 = (960000000000, "W"%string)) (rows s) =
          [((960000000000, "W"%string), 4%float)]) ∧
  (∃ s, @voltages example_env [voltage_line_tenths 1000 "W" 33]
          default_time_bins_size default_tz = Ok s ∧
        filter (λ r, r.1 = (960000000000, "W"%string)) (rows s) =
          [((960000000000, "W"%string), 3.3%float)]).
Proof.
  split.
  - eexists. split; [vm_compute; reflexivity|].
    match goal with |- context [rows ?s] =>
      pose proof (@voltages_group_mean example_env
        [voltage_line 1000 "W" 3; voltage_line 1010 "W" 5]
        default_time_bins_size default_tz s 60000000000
        [((Qc_of_Z 1000 * Qc_of_Z nanos_per_second)%Qc, ("W"%string, Qc_of_Z 3));
         ((Qc_of_Z 1010 * Qc_of_Z nanos_per_second)%Qc, ("W"%string, Qc_of_Z 5))]
        (960000000000, "W"%string)) as Hmean
    end.
    destruct Hmean as [Hrow _].
    + vm_compute; reflexivity.
    + vm_compute; reflexivity.
    + vm_compute; reflexivity.
    + repeat constructor; by apply exact_instant_second.
    + exact Hrow.
  - eexists. split; [vm_compute; reflexivity|].
    match goal with |- context [rows ?s] =>
      pose proof (@voltages_group_mean example_env
        [voltage_line_tenths 1000 "W" 33]
        default_time_bins_size default_tz s 60000000000
        [((Qc_of_Z 1000 * Qc_of_Z nanos_per_second)%Qc, ("W"%string, Q2Qc (33 # 10)))]
        (960000000000, "W"%string)) as Hmean
    end.
    destruct Hmean as [Hrow _].
    + vm_compute; reflexivity.
    + vm_compute; reflexivity.
    + vm_compute; reflexivity.
    + repeat constructor; by apply exact_instant_second.
    + exact Hrow.
Defined.

(** ** Empty streams *)

(** C7: with a known zone and a valid bin width, the empty stream makes
    [voltages] raise, and [id_to_member_mapping] too when it fills gaps;
    without gap filling [id_to_member_mapping] returns an empty table, and so
    does [sample_counts]. *)
Theorem empty_stream_raises `{Env} size tz width keep_type :
  tz_known tz = true →
  to_offset size = Ok width →
  voltages [] size tz = Raise (KeyError "voltage") ∧
  id_to_member_mapping [] size tz true =
    Raise (Exception "Can only reorder levels on a hierarchical axis.") ∧
  id_to_member_mapping [] size tz false = Ok {| index_tz := Some tz; rows := [] |} ∧
  sample_counts [] tz keep_type =
    Ok (if keep_type then ByTypeMember {| index_tz := Some tz; rows := [] |}
        else ByMember {| index_tz := Some tz; rows := [] |}).
Proof.
  intros Htz Hw. split_and!.
  - unfold voltages. simpl.
    rewrite (proj2 (assign_datetime_Ok [] tz (Some tz) [])) by done. simpl.
    by rewrite Hw.
  - unfold id_to_member_mapping. simpl.
    rewrite (proj2 (assign_datetime_Ok [] tz (Some tz) [])) by done. simpl.
    rewrite Hw. simpl. by apply fill_gaps_empty with width.
  - apply id_to_member_mapping_Ok. exists [], width. by split_and!.
  - apply sample_counts_Ok. exists []. split_and!; [done..|]. by destruct keep_type.
Qed.

Lemma empty_stream_raises_witness :
  @voltages example_env [] default_time_bins_size default_tz = Raise (KeyError "voltage") ∧
  @id_to_member_mapping example_env [] default_time_bins_size default_tz true =
    Raise (Exception "Can only reorder levels on a hierarchical axis.") ∧
  @id_to_member_mapping example_env [] default_time_bins_size default_tz false =
    Ok {| index_tz := Some default_tz; rows := [] |} ∧
  @sample_counts example_env [] default_tz false =
    Ok (ByMember {| index_tz := Some default_tz; rows := [] |}).
Proof.
  apply (@empty_stream_raises example_env
    default_time_bins_size default_tz 60000000000 false); reflexivity.
Defined.

(** ** Timestamps *)

(** C8, as stated, fails: an instant must fit in 64 bits of nanoseconds, and
    the epoch second 9223372037 does not. *)
Lemma normalize_out_of_bounds :
  @normalize example_env [JNum (Qc_of_Z 1000); JNum (Qc_of_Z 9223372037)] default_tz =
    Raise OutOfBoundsDatetime.
Proof. vm_compute. reflexivity. Qed.

(** C8, amended: a column of epoch seconds, each a binary64 number that is a
    whole number of nanoseconds, all of them within the 64 bits of
    nanoseconds of a datetime, is normalized to a column in the zone asked
    for, and each instant of the result is the instant of its input: that
    many seconds after the epoch. *)
Theorem normalize_same_instant `{Env} (seconds : list Qc) tz :
  tz_known tz = true →
  Forall (λ q, binary64_exact q ∧ whole_nanos q) seconds →
  Forall (λ q, in_bounds (q * Qc_of_Z nanos_per_second)) seconds →
  ∃ dt, normalize (JNum <$> seconds) tz = Ok dt ∧
        dt_tz dt = Some tz ∧
        Forall2 (λ q t, (t / Qc_of_Z nanos_per_second)%Qc = q) seconds (dt_values dt).
Proof.
  intros Htz _ Hin.
  exists {| dt_values := (λ q, q * Qc_of_Z nanos_per_second)%Qc <$> seconds;
            dt_tz := Some tz |}.
  split_and!; [|done|].
  - apply normalize_Ok. split_and!; [done..|]. simpl.
    apply mapM_Ok, Forall2_fmap, Forall_Forall2_diag.
    eapply Forall_impl; [done|]. intros q Hq. apply epoch_ns_Ok. by exists q.
  - simpl. apply Forall2_fmap_r, Forall_Forall2_diag, Forall_forall. intros q _.
    simpl. unfold Qcdiv. rewrite <-Qcmult_assoc, Qcmult_inv_r, Qcmult_1_r; [done|].
    rewrite <-Z2Qc_inj_0. by intros ?%Z2Qc_inj.
Qed.

(** The instants 1000 s and 1000.5 s, in the default zone. *)
Lemma normalize_same_instant_witness :
  ∃ dt, @normalize example_env [JNum (Qc_of_Z 1000); JNum (Q2Qc (2001 # 2))] default_tz = Ok dt ∧
        dt_tz dt = Some "US/Eastern"%string ∧
        Forall2 (λ q t, (t / Qc_of_Z nanos_per_second)%Qc = q)
          [Qc_of_Z 1000; Q2Qc (2001 # 2)] (dt_values dt).
Proof.
  apply (@normalize_same_instant example_env [Qc_of_Z 1000; Q2Qc (2001 # 2)] default_tz).
  - reflexivity.
  - repeat constructor.
    + exists 1000, 0. split_and!; [lia..|]. apply Qc_is_canon. vm_compute. reflexivity.
    + exists 1000000000000. apply Qc_is_canon. vm_compute. reflexivity.
    + exists 2001, 1. split_and!; [lia..|]. apply Qc_is_canon. vm_compute. reflexivity.
    + exists 1000500000000. apply Qc_is_canon. vm_compute. reflexivity.
  - repeat constructor; vm_compute; done.
Defined.

(** ** Sample counts *)

(** C5: a record whose type is neither "proximity received" nor "audio
    received" gets the count -1, whatever else its payload holds, and the
    count is a row of the table. *)
Theorem sample_counts_unknown_type `{Env}
    line data type q member lines tz keep_type table :
  getitem line "data" = Ok data →
  getitem line "type" = Ok type →
  eq_str type "proximity received" = false →
  eq_str type "audio received" = false →
  getitem data "timestamp" = Ok (JNum q) →
  getitem data "member" = Ok member →
  sample_counts_row line = Ok (JNum q, (str type, str member, -1)) ∧
  (line ∈ lines → sample_counts lines tz keep_type = Ok table →
   match table with
   | ByMember t =>
       ((q * Qc_of_Z nanos_per_second)%Qc, str member, -1) ∈ rows t
   | ByTypeMember t =>
       ((q * Qc_of_Z nanos_per_second)%Qc, str type, str member, -1) ∈ rows t
   end).
Proof.
  intros Hdata Htype Hprox Haudio Hts Hmember.
  assert (Hrow : sample_counts_row line = Ok (JNum q, (str type, str member, -1))).
  { unfold sample_counts_row. rewrite Hdata. simpl. rewrite Htype. simpl.
    rewrite Hprox, Haudio. simpl. rewrite Hts. simpl. by rewrite Hmember. }
  split; [done|].
  intros Hin (recs & Hrecs & _ & ->)%sample_counts_Ok.
  apply mapM_Ok in Hrecs.
  destruct (proj1 (list_elem_of_lookup _ _) Hin) as [i Hi].
  destruct (Forall2_lookup_l _ _ _ _ _ Hrecs Hi) as (r & Hr & Hrec).
  unfold count_record in Hrec. rewrite Hrow in Hrec.
  apply with_instant_Ok in Hrec as ->. apply list_elem_of_lookup_2 in Hr.
  destruct keep_type; simpl; apply elem_of_sort_index, list_elem_of_fmap;
    eexists; (split; [|exact Hr]); done.
Qed.

Lemma sample_counts_unknown_type_witness :
  ∃ t, @sample_counts example_env
         [count_line "unknown type" 1000 "alice" "rssi_distances" [JNull; JNull]]
         default_tz false = Ok (ByMember t) ∧
       ((Qc_of_Z 1000 * Qc_of_Z nanos_per_second)%Qc, "alice"%string, -1) ∈ rows t.
Proof.
  eexists. split; [vm_compute; reflexivity|].
  match goal with |- _ ∈ rows ?t =>
    apply (proj2 (@sample_counts_unknown_type example_env
      (count_line "unknown type" 1000 "alice" "rssi_distances" [JNull; JNull])
      (obj [("timestamp", JNum (Qc_of_Z 1000)); ("member", JStr "alice");
            ("badge_address", JStr "AA:BB:CC:DD:EE:FF");
            ("rssi_distances", JArr [JNull; JNull])]%string)
      (JStr "unknown type") (Qc_of_Z 1000) (JStr "alice")
      [count_line "unknown type" 1000 "alice" "rssi_distances" [JNull; JNull]]
      default_tz false (ByMember t)
      ltac:(vm_compute; reflexivity) ltac:(vm_compute; reflexivity)
      ltac:(vm_compute; reflexivity) ltac:(vm_compute; reflexivity)
      ltac:(vm_compute; reflexivity) ltac:(vm_compute; reflexivity)))
  end.
  - by left.
  - vm_compute; reflexivity.
Defined.

(** C10: a record of a recognized type whose payload lacks the sequence that
    type is counted by makes the whole run raise; when the lines before it
    decode, what is raised is the failed lookup of that field. *)
Theorem sample_counts_missing_field `{Env}
    pre line post tz keep_type fields type key :
  getitem line "data" = Ok (JObj fields) →
  getitem line "type" = Ok type →
  (eq_str type "proximity received" = true ∧ key = "rssi_distances"%string) ∨
  (eq_str type "audio received" = true ∧ key = "samples"%string) →
  fields !! key = None →
  (∃ e, sample_counts (pre ++ line :: post) tz keep_type = Raise e) ∧
  (Forall (λ l, ∃ r, sample_counts_row l = Ok r) pre →
   sample_counts (pre ++ line :: post) tz keep_type = Raise (KeyError key)).
Proof.
  intros Hdata Htype Hkind Hmiss.
  assert (Hrow : sample_counts_row line = Raise (KeyError key)).
  { unfold sample_counts_row. rewrite Hdata. simpl. rewrite Htype. simpl.
    destruct Hkind as [[Hprox ->]|[Haudio ->]].
    - rewrite Hprox. simpl. by rewrite Hmiss.
    - destruct type as [| | |s| |]; try done. simpl in Haudio.
      apply bool_decide_eq_true in Haudio as ->. simpl. by rewrite Hmiss. }
  split.
  - destruct (mapM_Raise_any sample_counts_row (pre ++ line :: post) line (KeyError key))
      as [e He]; [apply elem_of_app; right; by left | done |].
    exists e. unfold sample_counts. by rewrite He.
  - intros Hpre. unfold sample_counts. by rewrite (mapM_Raise _ _ _ _ _ Hpre Hrow).
Qed.

Lemma sample_counts_missing_field_witness :
  @sample_counts example_env
    [count_line "audio received" 900 "bob" "samples" [JNull];
     count_line "proximity received" 1000 "alice" "samples" [JNull];
     count_line "unknown type" 1100 "carol" "samples" []]
    default_tz false = Raise (KeyError "rssi_distances").
Proof.
  apply (@sample_counts_missing_field example_env
    [count_line "audio received" 900 "bob" "samples" [JNull]]
    (count_line "proximity received" 1000 "alice" "samples" [JNull])
    [count_line "unknown type" 1100 "carol" "samples" []]
    default_tz false
    (list_to_map [("timestamp", JNum (Qc_of_Z 1000)); ("member", JStr "alice");
                  ("badge_address", JStr "AA:BB:CC:DD:EE:FF");
                  ("samples", JArr [JNull])]%string)
    (JStr "proximity received") "rssi_distances").
  - vm_compute; reflexivity.
  - vm_compute; reflexivity.
  - left. split; reflexivity.
  - vm_compute; reflexivity.
  - repeat constructor. eexists. vm_compute. reflexivity.
Defined.

(** ** The index of the count table *)

(** C3, as stated, fails: the record at epoch second 1000 is labelled with
    second 1000, which is not the start of a bin of one minute (960 is). *)
Lemma sample_counts_not_keyed_by_bin_start :
  ∃ width table,
    to_offset default_time_bins_size = Ok width ∧
    @sample_counts example_env
      [count_line "proximity received" 1000 "alice" "rssi_distances"
         [JNum (Qc_of_Z 1); JNum (Qc_of_Z 2); JNum (Qc_of_Z 3)]]
      default_tz false = Ok table ∧
    ¬ keyed_by_bin_start width table.
Proof.
  do 2 eexists. split; [reflexivity|]. split; [vm_compute; reflexivity|].
  intros Hkeyed. simpl in Hkeyed.
  specialize (Hkeyed _ (list_elem_of_here _ _)).
  apply (f_equal (λ q, Qnum (this q))) in Hkeyed. vm_compute in Hkeyed. discriminate.
Qed.

(** C3, amended: [sample_counts] has no bin width; its table has one row for
    each record of the stream, labelled with the exact instant of the
    record, with its wearer (and its type, with [keep_type]) and count. *)
Theorem sample_counts_one_row_per_record `{Env} lines tz keep_type table :
  sample_counts lines tz keep_type = Ok table →
  ∃ recs : list (Qc * (string * string * Z)),
    Forall2 (λ line r, ∃ q,
      sample_counts_row line = Ok (JNum q, r.2) ∧
      r.1 = (q * Qc_of_Z nanos_per_second)%Qc) lines recs ∧
    match table with
    | ByMember t =>
        keep_type = false ∧ rows t ≡ₚ (λ r, ((r.1, r.2.1.2), r.2.2)) <$> recs
    | ByTypeMember t =>
        keep_type = true ∧ rows t ≡ₚ (λ r, ((r.1, r.2.1.1, r.2.1.2), r.2.2)) <$> recs
    end.
Proof.
  intros (recs & Hrecs & _ & ->)%sample_counts_Ok. exists recs. split.
  - apply mapM_Ok in Hrecs. eapply Forall2_impl; [done|].
    intros line [t x] ([ts x'] & Hrow & Hinst)%bind_Ok.
    apply bind_Ok in Hinst as (t' & (q & Hts & -> & _)%epoch_ns_Ok & [= <- <-]).
    simpl in Hts. subst ts. by exists q.
  - destruct keep_type; (split; [done|]); apply sort_index_Permutation.
Qed.

Lemma sample_counts_one_row_per_record_witness :
  ∃ t, @sample_counts example_env
         [count_line "proximity received" 1000 "alice" "rssi_distances"
            [JNum (Qc_of_Z 1); JNum (Qc_of_Z 2); JNum (Qc_of_Z 3)]]
         default_tz false = Ok (ByMember t) ∧
       rows t = [((Qc_of_Z 1000 * Qc_of_Z nanos_per_second)%Qc, "alice"%string, 3)].
Proof.
  eexists. split; [vm_compute; reflexivity|].
  match goal with |- rows ?t = _ =>
    destruct (@sample_counts_one_row_per_record example_env
      [count_line "proximity received" 1000 "alice" "rssi_distances"
         [JNum (Qc_of_Z 1); JNum (Qc_of_Z 2); JNum (Qc_of_Z 3)]]
      default_tz false (ByMember t)) as (recs & Hrecs & _ & Hrows)
  end.
  - vm_compute; reflexivity.
  - vm_compute; reflexivity.
Defined.

(** ** Order and uniqueness of the rows *)

(** C4, as stated, fails for [sample_counts]: two records with the same
    instant and wearer give two rows with the same key. *)
Lemma sample_counts_repeats_a_key :
  ∃ t, @sample_counts example_env
         [count_line "proximity received" 1000 "alice" "rssi_distances" [JNull];
          count_line "audio received" 1000 "alice" "samples" [JNull; JNull]]
         default_tz false = Ok (ByMember t) ∧
       ¬ NoDup ((rows t).*1).
Proof.
  eexists. split; [vm_compute; reflexivity|].
  simpl. intros [Hnin _]%NoDup_cons. destruct Hnin. by left.
Qed.

(** C4, amended: the tables of [id_to_member_mapping] and [voltages] are
    strictly ascending in their keys, so they have at most one row for a
    key; the table of [sample_counts] is ascending in its keys and has one
    row for each record of the stream. *)
Theorem tables_sorted_by_key `{Env} id_lines v_lines c_lines size tz fill_gaps keep_type :
  (∀ s, id_to_member_mapping id_lines size tz fill_gaps = Ok s →
     Sorted row_lt (rows s) ∧ NoDup ((rows s).*1)) ∧
  (∀ s, voltages v_lines size tz = Ok s →
     Sorted row_lt (rows s) ∧ NoDup ((rows s).*1)) ∧
  (∀ table, sample_counts c_lines tz keep_type = Ok table →
     match table with
     | ByMember t => Sorted row_le (rows t) ∧ length (rows t) = length c_lines
     | ByTypeMember t => Sorted row_le (rows t) ∧ length (rows t) = length c_lines
     end).
Proof.
  split_and!.
  - intros s (recs & width & _ & _ & Hw & _ & ->)%id_to_member_mapping_Ok. simpl.
    apply to_offset_pos in Hw. destruct fill_gaps.
    + split; [by apply filled_rows_Sorted | by apply filled_rows_NoDup].
    + split; [apply idmap_rows_Sorted | apply idmap_rows_NoDup].
  - intros s (recs & width & _ & _ & _ & _ & ->)%voltages_Ok. simpl.
    split; [apply aggregated_Sorted | apply aggregated_NoDup].
  - intros table (recs & Hrecs & _ & ->)%sample_counts_Ok.
    apply mapM_Ok, Forall2_length in Hrecs.
    destruct keep_type; simpl; (split; [apply sort_index_Sorted|]);
      by rewrite sort_index_Permutation, length_fmap.
Qed.

Lemma tables_sorted_by_key_witness :
  ∃ s1 s2 t,
    @id_to_member_mapping example_env
      [identity_line 1200 "d" "C"; identity_line 1000 "d" "A"]
      default_time_bins_size default_tz true = Ok s1 ∧
    Sorted row_lt (rows s1) ∧
    @voltages example_env [voltage_line 1100 "W" 3; voltage_line 1000 "W" 5]
      default_time_bins_size default_tz = Ok s2 ∧
    Sorted row_lt (rows s2) ∧
    @sample_counts example_env
      [count_line "proximity received" 1000 "alice" "rssi_distances" [JNull];
       count_line "audio received" 1000 "alice" "samples" [JNull; JNull]]
      default_tz false = Ok (ByMember t) ∧
    Sorted row_le (rows t) ∧ length (rows t) = 2%nat.
Proof.
  do 3 eexists.
  destruct (@tables_sorted_by_key example_env
    [identity_line 1200 "d" "C"; identity_line 1000 "d" "A"]
    [voltage_line 1100 "W" 3; voltage_line 1000 "W" 5]
    [count_line "proximity received" 1000 "alice" "rssi_distances" [JNull];
     count_line "audio received" 1000 "alice" "samples" [JNull; JNull]]
    default_time_bins_size default_tz true false) as (Hid & Hv & Hc).
  split; [vm_compute; reflexivity|].
  split; [apply Hid; vm_compute; reflexivity|].
  split; [vm_compute; reflexivity|].
  split; [apply Hv; vm_compute; reflexivity|].
  split; [vm_compute; reflexivity|].
  match goal with |- Sorted _ (rows ?t) ∧ _ =>
    apply (Hc (ByMember t)); vm_compute; reflexivity
  end.
Defined.

(** * Further properties of the pipelines *)

(** ** Lines that fail *)

Section failing_lines.
Context `{Env}.

Lemma id_to_member_mapping_Raise pre line post e size tz fill_gaps :
  Forall (λ l, ∃ r, id_to_member_mapping_row l = Ok r) pre →
  id_to_member_mapping_row line = Raise e →
  id_to_member_mapping (pre ++ line :: post) size tz fill_gaps = Raise e.
Proof.
  intros Hpre Hline. unfold id_to_member_mapping.
  by rewrite (mapM_Raise _ _ _ _ _ Hpre Hline).
Qed.

Lemma voltages_Raise pre line post e size tz :
  Forall (λ l, ∃ r, voltages_row l = Ok r) pre →
  voltages_row line = Raise e →
  voltages (pre ++ line :: post) size tz = Raise e.
Proof.
  intros Hpre Hline. unfold voltages.
  by rewrite (mapM_Raise _ _ _ _ _ Hpre Hline).
Qed.

Lemma sample_counts_Raise pre line post e tz keep_type :
  Forall (λ l, ∃ r, sample_counts_row l = Ok r) pre →
  sample_counts_row line = Raise e →
  sample_counts (pre ++ line :: post) tz keep_type = Raise e.
Proof.
  intros Hpre Hline. unfold sample_counts.
  by rewrite (mapM_Raise _ _ _ _ _ Hpre Hline).
Qed.

Lemma assign_datetime_unknown_zone {X} (df : list (json * X)) tz recs :
  mapM with_instant df = Ok recs → tz_known tz = false →
  assign_datetime df tz = Raise (UnknownTimeZoneError tz).
Proof.
  intros [Hvs _]%with_instant_unzip Htz.
  unfold assign_datetime, normalize, to_datetime. rewrite Hvs. simpl.
  unfold tz_convert. simpl. by rewrite Htz.
Qed.
End failing_lines.

(** X1: the generator is drained before anything else is looked at, so the
    first line that fails gives the run its exception, whatever the zone,
    the bin width, the flags and the lines after it are. *)
Theorem first_failing_line_decides `{Env}
    pre line post e size tz fill_gaps keep_type :
  (Forall (λ l, ∃ r, id_to_member_mapping_row l = Ok r) pre →
   id_to_member_mapping_row line = Raise e →
   id_to_member_mapping (pre ++ line :: post) size tz fill_gaps = Raise e) ∧
  (Forall (λ l, ∃ r, voltages_row l = Ok r) pre →
   voltages_row line = Raise e →
   voltages (pre ++ line :: post) size tz = Raise e) ∧
  (Forall (λ l, ∃ r, sample_counts_row l = Ok r) pre →
   sample_counts_row line = Raise e →
   sample_counts (pre ++ line :: post) tz keep_type = Raise e).
Proof.
  split_and!.
  - apply id_to_member_mapping_Raise.
  - apply voltages_Raise.
  - apply sample_counts_Raise.
Qed.

(** A line that is not an object, after a good one, with a zone and a width
    that do not exist: the line's error is what is raised. *)
Lemma first_failing_line_decides_witness :
  @id_to_member_mapping example_env
    [identity_line 1000 "d" "A"; JNull; identity_line 1010 "d" "B"]
    "1 fortnight" "Mars/Olympus" true = Raise TypeError.
Proof.
  apply (proj1 (@first_failing_line_decides example_env
    [identity_line 1000 "d" "A"] JNull [identity_line 1010 "d" "B"]
    TypeError "1 fortnight" "Mars/Olympus" true false)).
  - repeat constructor. eexists. vm_compute. reflexivity.
  - reflexivity.
Defined.

(** X2: [id_to_member_mapping] reads [timestamp], [badge_address] and
    [member] of a line in that order: the run raises the lookup error of
    the first of them that the payload lacks, and what
    [mac_address_to_id] raises when the address is refused. *)
Theorem id_to_member_mapping_missing_field `{Env}
    pre line post fields size tz fill_gaps :
  Forall (λ l, ∃ r, id_to_member_mapping_row l = Ok r) pre →
  getitem line "data" = Ok (JObj fields) →
  let run := id_to_member_mapping (pre ++ line :: post) size tz fill_gaps in
  (fields !! "timestamp" = None → run = Raise (KeyError "timestamp")) ∧
  (is_Some (fields !! "timestamp") → fields !! "badge_address" = None →
   run = Raise (KeyError "badge_address")) ∧
  (∀ a e, is_Some (fields !! "timestamp") → fields !! "badge_address" = Some a →
   mac_address_to_id a = Raise e → run = Raise e) ∧
  (∀ a id, is_Some (fields !! "timestamp") → fields !! "badge_address" = Some a →
   mac_address_to_id a = Ok id → fields !! "member" = None →
   run = Raise (KeyError "member")).
Proof.
  intros Hpre Hdata. simpl. split_and!.
  - intros Hts. apply id_to_member_mapping_Raise; [done|].
    unfold id_to_member_mapping_row. rewrite Hdata. simpl. by rewrite Hts.
  - intros [ts Hts] Ha. apply id_to_member_mapping_Raise; [done|].
    unfold id_to_member_mapping_row. rewrite Hdata. simpl. rewrite Hts. simpl.
    by rewrite Ha.
  - intros a e [ts Hts] Ha He. apply id_to_member_mapping_Raise; [done|].
    unfold id_to_member_mapping_row. rewrite Hdata. simpl. rewrite Hts. simpl.
    rewrite Ha. simpl. by rewrite He.
  - intros a id [ts Hts] Ha Hid Hm. apply id_to_member_mapping_Raise; [done|].
    unfold id_to_member_mapping_row. rewrite Hdata. simpl. rewrite Hts. simpl.
    rewrite Ha. simpl. rewrite Hid. simpl. by rewrite Hm.
Qed.

(** A payload with neither address nor member: the address is missed
    first. *)
Lemma id_to_member_mapping_missing_field_witness :
  @id_to_member_mapping example_env
    [obj [("data", obj [("timestamp", JNum (Qc_of_Z 1000))])]]%string
    default_time_bins_size default_tz true = Raise (KeyError "badge_address").
Proof.
  destruct (@id_to_member_mapping_missing_field example_env
    [] (obj [("data", obj [("timestamp", JNum (Qc_of_Z 1000))])]%string) []
    (list_to_map [("timestamp", JNum (Qc_of_Z 1000))]%string)
    default_time_bins_size default_tz true) as (_ & Haddress & _).
  - constructor.
  - vm_compute. reflexivity.
  - apply Haddress.
    + eexists. vm_compute. reflexivity.
    + vm_compute. reflexivity.
Defined.

(** X3: [voltages] reads [timestamp], [member] and [voltage] of a line in
    that order and converts the voltage with [float]: a payload without a
    voltage raises the lookup error, a voltage that is null, a list or an
    object raises a type error, and a voltage that is a JSON boolean is
    read as 1 or 0 without complaint. *)
Theorem voltages_bad_voltage `{Env} pre line post fields ts member size tz :
  Forall (λ l, ∃ r, voltages_row l = Ok r) pre →
  getitem line "data" = Ok (JObj fields) →
  fields !! "timestamp" = Some ts →
  fields !! "member" = Some member →
  (fields !! "voltage" = None →
   voltages (pre ++ line :: post) size tz = Raise (KeyError "voltage")) ∧
  (∀ v, fields !! "voltage" = Some v →
   v = JNull ∨ (∃ items, v = JArr items) ∨ (∃ d, v = JObj d) →
   voltages (pre ++ line :: post) size tz = Raise TypeError) ∧
  (∀ b, fields !! "voltage" = Some (JBool b) →
   voltages_row line = Ok (ts, (str member, Qc_of_Z (if b then 1 else 0)))).
Proof.
  intros Hpre Hdata Hts Hm.
  assert (Hrow : voltages_row line =
    (voltage ← getitem (JObj fields) "voltage"; voltage ← float voltage;
     Ok (ts, (str member, voltage)))).
  { unfold voltages_row. rewrite Hdata. simpl. rewrite Hts. simpl. by rewrite Hm. }
  simpl in Hrow. split_and!.
  - intros Hv. apply voltages_Raise; [done|]. by rewrite Hrow, Hv.
  - intros v Hv Hkind. apply voltages_Raise; [done|]. rewrite Hrow, Hv.
    by destruct Hkind as [->|[[items ->]|[d ->]]].
  - intros b Hv. rewrite Hrow, Hv. by destruct b.
Qed.

Lemma voltages_bad_voltage_witness :
  @voltages example_env
    [voltage_line 1000 "W" 3;
     obj [("data", obj [("timestamp", JNum (Qc_of_Z 1010)); ("member", JStr "W");
                        ("voltage", JNull)])]]%string
    default_time_bins_size default_tz = Raise TypeError.
Proof.
  destruct (@voltages_bad_voltage example_env
    [voltage_line 1000 "W" 3]
    (obj [("data", obj [("timestamp", JNum (Qc_of_Z 1010)); ("member", JStr "W");
                        ("voltage", JNull)])]%string) []
    (list_to_map [("timestamp", JNum (Qc_of_Z 1010)); ("member", JStr "W");
                  ("voltage", JNull)]%string)
    (JNum (Qc_of_Z 1010)) (JStr "W") default_time_bins_size default_tz)
    as (_ & Hnull & _).
  - repeat constructor. eexists. vm_compute. reflexivity.
  - vm_compute. reflexivity.
  - vm_compute. reflexivity.
  - vm_compute. reflexivity.
  - apply (Hnull JNull); [vm_compute; reflexivity | by left].
Defined.

(** ** Configuration *)

(** X4: the zone is looked up once the whole stream has been decoded and its
    timestamps converted: with a zone the database does not know, each
    pipeline raises for every stream that decodes, the empty one
    included. *)
Theorem unknown_zone_raises `{Env}
    id_lines v_lines c_lines recs1 recs2 recs3 size tz fill_gaps keep_type :
  tz_known tz = false →
  (mapM id_record id_lines = Ok recs1 →
   id_to_member_mapping id_lines size tz fill_gaps = Raise (UnknownTimeZoneError tz)) ∧
  (mapM voltage_record v_lines = Ok recs2 →
   voltages v_lines size tz = Raise (UnknownTimeZoneError tz)) ∧
  (mapM count_record c_lines = Ok recs3 →
   sample_counts c_lines tz keep_type = Raise (UnknownTimeZoneError tz)).
Proof.
  intros Htz. split_and!.
  - intros (df & Hdf & Hrecs)%mapM_compose_Ok. unfold id_to_member_mapping.
    rewrite Hdf. simpl. by rewrite (assign_datetime_unknown_zone _ _ _ Hrecs Htz).
  - intros (df & Hdf & Hrecs)%mapM_compose_Ok. unfold voltages.
    rewrite Hdf. simpl. by rewrite (assign_datetime_unknown_zone _ _ _ Hrecs Htz).
  - intros (df & Hdf & Hrecs)%mapM_compose_Ok. unfold sample_counts.
    rewrite Hdf. simpl. by rewrite (assign_datetime_unknown_zone _ _ _ Hrecs Htz).
Qed.

Lemma unknown_zone_raises_witness :
  @id_to_member_mapping example_env [] default_time_bins_size "Mars/Olympus" true =
    Raise (UnknownTimeZoneError "Mars/Olympus") ∧
  @voltages example_env [voltage_line 1000 "W" 3] default_time_bins_size "Mars/Olympus" =
    Raise (UnknownTimeZoneError "Mars/Olympus") ∧
  @sample_counts example_env [] "Mars/Olympus" false =
    Raise (UnknownTimeZoneError "Mars/Olympus").
Proof.
  destruct (@unknown_zone_raises example_env
    [] [voltage_line 1000 "W" 3] []
    [] [((Qc_of_Z 1000 * Qc_of_Z nanos_per_second)%Qc, ("W"%string, Qc_of_Z 3))] []
    default_time_bins_size "Mars/Olympus" true false) as (Hid & Hv & Hc).
  - reflexivity.
  - split_and!; [apply Hid | apply Hv | apply Hc]; vm_compute; reflexivity.
Defined.

(** ** Sample counts, continued *)

Lemma sample_counts_row_in_table `{Env} line q type member cnt lines tz keep_type table :
  sample_counts_row line = Ok (JNum q, (type, member, cnt)) →
  line ∈ lines →
  sample_counts lines tz keep_type = Ok table →
  match table with
  | ByMember t => ((q * Qc_of_Z nanos_per_second)%Qc, member, cnt) ∈ rows t
  | ByTypeMember t => ((q * Qc_of_Z nanos_per_second)%Qc, type, member, cnt) ∈ rows t
  end.
Proof.
  intros Hrow Hin (recs & Hrecs & _ & ->)%sample_counts_Ok.
  apply mapM_Ok in Hrecs.
  destruct (proj1 (list_elem_of_lookup _ _) Hin) as [i Hi].
  destruct (Forall2_lookup_l _ _ _ _ _ Hrecs Hi) as (r & Hr & Hrec).
  unfold count_record in Hrec. rewrite Hrow in Hrec.
  apply with_instant_Ok in Hrec as ->. apply list_elem_of_lookup_2 in Hr.
  destruct keep_type; simpl; apply elem_of_sort_index, list_elem_of_fmap;
    eexists; (split; [|exact Hr]); done.
Qed.

(** X6: a record of type "proximity received" is counted by the number of
    items of its [rssi_distances], one of type "audio received" by the
    number of items of its [samples]; the count is a row of the table of
    every run that succeeds. *)
Theorem sample_counts_counts_items `{Env}
    line fields type key items q member lines tz keep_type table :
  getitem line "data" = Ok (JObj fields) →
  getitem line "type" = Ok type →
  (eq_str type "proximity received" = true ∧ key = "rssi_distances"%string) ∨
  (eq_str type "audio received" = true ∧ key = "samples"%string) →
  fields !! key = Some (JArr items) →
  fields !! "timestamp" = Some (JNum q) →
  fields !! "member" = Some member →
  line ∈ lines →
  sample_counts lines tz keep_type = Ok table →
  match table with
  | ByMember t =>
      ((q * Qc_of_Z nanos_per_second)%Qc, str member, Z.of_nat (length items)) ∈ rows t
  | ByTypeMember t =>
      ((q * Qc_of_Z nanos_per_second)%Qc, str type, str member,
       Z.of_nat (length items)) ∈ rows t
  end.
Proof.
  intros Hdata Htype Hkind Hitems Hts Hm.
  apply sample_counts_row_in_table.
  unfold sample_counts_row. rewrite Hdata. simpl. rewrite Htype. simpl.
  destruct Hkind as [[Hprox ->]|[Haudio ->]].
  - rewrite Hprox. simpl. rewrite Hitems. simpl. rewrite Hts. simpl. by rewrite Hm.
  - destruct type as [| | |s| |]; try done. simpl in Haudio.
    apply bool_decide_eq_true in Haudio as ->. simpl.
    rewrite Hitems. simpl. rewrite Hts. simpl. by rewrite Hm.
Qed.

(** Three distances at epoch second 1000 for "alice": one row, count 3. *)
Lemma sample_counts_counts_items_witness :
  ∃ t, @sample_counts example_env
         [count_line "proximity received" 1000 "alice" "rssi_distances"
            [JNum (Qc_of_Z 1); JNum (Qc_of_Z 2); JNum (Qc_of_Z 3)]]
         default_tz false = Ok (ByMember t) ∧
       ((Qc_of_Z 1000 * Qc_of_Z nanos_per_second)%Qc, "alice"%string, 3) ∈ rows t.
Proof.
  eexists. split; [vm_compute; reflexivity|].
  match goal with |- _ ∈ rows ?t =>
    apply (@sample_counts_counts_items example_env
      (count_line "proximity received" 1000 "alice" "rssi_distances"
         [JNum (Qc_of_Z 1); JNum (Qc_of_Z 2); JNum (Qc_of_Z 3)])
      (list_to_map [("timestamp", JNum (Qc_of_Z 1000)); ("member", JStr "alice");
                    ("badge_address", JStr "AA:BB:CC:DD:EE:FF");
                    ("rssi_distances",
                     JArr [JNum (Qc_of_Z 1); JNum (Qc_of_Z 2); JNum (Qc_of_Z 3)])]%string)
      (JStr "proximity received") "rssi_distances"
      [JNum (Qc_of_Z 1); JNum (Qc_of_Z 2); JNum (Qc_of_Z 3)]
      (Qc_of_Z 1000) (JStr "alice")
      [count_line "proximity received" 1000 "alice" "rssi_distances"
         [JNum (Qc_of_Z 1); JNum (Qc_of_Z 2); JNum (Qc_of_Z 3)]]
      default_tz false (ByMember t))
  end.
  - vm_compute; reflexivity.
  - vm_compute; reflexivity.
  - left. split; reflexivity.
  - vm_compute; reflexivity.
  - vm_compute; reflexivity.
  - vm_compute; reflexivity.
  - by left.
  - vm_compute; reflexivity.
Defined.

(** X7: the count of a row is never below -1, and it is -1 exactly when the
    type of the record is neither of the two that are counted: a counted
    record cannot be taken for an unknown one. *)
Theorem sample_counts_sentinel_iff_unknown `{Env} line type ts ty member cnt :
  getitem line "type" = Ok type →
  sample_counts_row line = Ok (ts, (ty, member, cnt)) →
  -1 ≤ cnt ∧
  (cnt = -1 ↔
   eq_str type "proximity received" = false ∧ eq_str type "audio received" = false).
Proof.
  intros Htype. unfold sample_counts_row.
  intros (data & Hdata & (type' & Htype' & (cnt' & Hcnt & Hrest)%bind_Ok)%bind_Ok)%bind_Ok.
  assert (type' = type) as -> by congruence.
  apply bind_Ok in Hrest as (ts' & _ & (m' & _ & [= _ _ _ ->])%bind_Ok).
  assert (Hlen : ∀ x n, len x = Ok n → 0 ≤ n).
  { intros [] n [= <-]; lia. }
  destruct (eq_str type "proximity received").
  { apply bind_Ok in Hcnt as (x & _ & Hn%Hlen). split; [lia|]. split; [lia|by intros []]. }
  destruct (eq_str type "audio received").
  { apply bind_Ok in Hcnt as (x & _ & Hn%Hlen). split; [lia|]. split; [lia|by intros []]. }
  injection Hcnt as <-. done.
Qed.

Lemma sample_counts_sentinel_iff_unknown_witness :
  -1 ≤ 0 ∧
  (0 = -1 ↔
   eq_str (JStr "audio received") "proximity received" = false ∧
   eq_str (JStr "audio received") "audio received" = false).
Proof.
  apply (@sample_counts_sentinel_iff_unknown example_env
    (count_line "audio received" 900 "bob" "samples" [])
    (JStr "audio received") (JNum (Qc_of_Z 900)) "audio received" "bob" 0).
  - vm_compute; reflexivity.
  - vm_compute; reflexivity.
Defined.

(** X8: [keep_type] only decides whether the type stays in the index: both
    settings fail together, with the same exception, and when they succeed
    the table without the type is the table with the type, the type level
    dropped, up to the order of rows with the same key. *)
Theorem sample_counts_keep_type_drops_level `{Env} lines tz :
  match sample_counts lines tz true, sample_counts lines tz false with
  | Ok (ByTypeMember t1), Ok (ByMember t0) =>
      index_tz t0 = index_tz t1 ∧
      rows t0 ≡ₚ (λ r, ((r.1.1.1, r.1.2), r.2)) <$> rows t1
  | Raise e1, Raise e0 => e1 = e0
  | _, _ => False
  end.
Proof.
  unfold sample_counts.
  destruct (mapM sample_counts_row lines) as [df|e]; simpl; [|done].
  destruct (assign_datetime df tz) as [[zone recs]|e]; simpl; [|done].
  split; [done|].
  rewrite !sort_index_Permutation, <-list_fmap_compose.
  by apply reflexive_eq, list_fmap_ext.
Qed.

(** X9: the type of the envelope is read by [sample_counts] only: a line
    without it decodes as before for [id_to_member_mapping] and
    [voltages], and makes [sample_counts] raise the lookup error. *)
Theorem envelope_type_read_by_sample_counts_only `{Env} (fields : gmap string json) :
  id_to_member_mapping_row (JObj (delete "type"%string fields)) =
    id_to_member_mapping_row (JObj fields) ∧
  voltages_row (JObj (delete "type"%string fields)) = voltages_row (JObj fields) ∧
  (is_Some (fields !! "data"%string) →
   sample_counts_row (JObj (delete "type"%string fields)) = Raise (KeyError "type")).
Proof.
  assert (Hdata : getitem (JObj (delete "type"%string fields)) "data" =
                  getitem (JObj fields) "data").
  { simpl. by rewrite lookup_delete_ne. }
  split_and!.
  - unfold id_to_member_mapping_row. by rewrite Hdata.
  - unfold voltages_row. by rewrite Hdata.
  - intros [data Hd]. unfold sample_counts_row. rewrite Hdata. simpl. rewrite Hd. simpl.
    by rewrite lookup_delete_eq.
Qed.

Lemma envelope_type_read_by_sample_counts_only_witness :
  @sample_counts_row example_env
    (JObj (delete "type"%string
       (list_to_map [("type", JStr "audio received"); ("data", obj [])]%string))) =
  Raise (KeyError "type").
Proof.
  apply (@envelope_type_read_by_sample_counts_only example_env
    (list_to_map [("type", JStr "audio received"); ("data", obj [])]%string)).
  eexists. vm_compute. reflexivity.
Defined.

(** ** Gap filling, continued *)

(** In the zone of the examples the widths that divide a day give the same
    bins from every midnight. *)
Lemma example_env_grid_aligned tz width :
  (width | nanos_per_day) → @grid_aligned example_env tz width.
Proof.
  intros [k Hk] t t'. simpl. unfold fixed_offset_day_start. rewrite Hk.
  set (a := (t - 18000000000000) `div` (k * width)).
  set (b := (t' - 18000000000000) `div` (k * width)).
  exists (k * (a - b)). lia.
Qed.

Lemma filled_rows_nonempty `{Env} zone width idmap :
  0 < width → idmap ≠ [] → filled_rows zone width idmap ≠ [].
Proof.
  intros Hw Hne Hnil. destruct idmap as [|[[t d] v] idmap]; [done|].
  destruct (device_range_exists ((t, d, v) :: idmap) d t v) as (lo & hi & Hrange);
    [by left|].
  destruct (filled_rows_range zone width _ Hw _ _ _ Hrange) as (Hlo & _).
  rewrite Hnil in Hlo. by apply elem_of_nil in Hlo.
Qed.

(** X10: without gap filling the mapping has a row for a (bin, device)
    exactly when some record of the stream falls in that bin for that
    device: no key is made up and none is lost.  The bins are counted from
    the local midnight of the first day of the stream; the timestamps are
    whole counts of nanoseconds that binary64 holds as they are. *)
Theorem mapping_keys_are_observed `{Env} lines size tz s width recs b d :
  id_to_member_mapping lines size tz false = Ok s →
  to_offset size = Ok width →
  mapM id_record lines = Ok recs →
  exact_instants recs →
  (b, d) ∈ (rows s).*1 ↔
  ∃ line t m, line ∈ lines ∧ id_record line = Ok (t, (d, m)) ∧
              bin_from (stream_origin tz recs) width t = b.
Proof.
  intros (recs' & w0 & Hrecs' & _ & Hw0 & _ & ->)%id_to_member_mapping_Ok Hw Hrecs _.
  assert (recs' = recs) as -> by congruence.
  assert (w0 = width) as -> by congruence. simpl.
  rewrite idmap_rows_keys. split.
  - intros (t & m & (line & Hin & Hrec)%(mapM_Ok_elem_of _ _ _ _ Hrecs) & Hb).
    by exists line, t, m.
  - intros (line & t & m & Hin & Hrec & Hb). exists t, m. split; [|done].
    apply (mapM_Ok_elem_of _ _ _ _ Hrecs). eauto.
Qed.

(** Records at 1000 s and 4700 s with bins of two hours: the bins are
    counted from the local midnight, 19 hours before the epoch, so the
    records fall in the bins that start an hour before the epoch and an hour
    after it. *)
Lemma mapping_keys_are_observed_witness :
  ∃ s, @id_to_member_mapping example_env
         [identity_line 1000 "d" "A"; identity_line 4700 "d" "C"]
         "2H" default_tz false = Ok s ∧
       (-3600000000000, 1) ∈ (rows s).*1 ∧ (3600000000000, 1) ∈ (rows s).*1.
Proof.
  eexists. split; [vm_compute; reflexivity|].
  split.
  - apply (@mapping_keys_are_observed example_env
      [identity_line 1000 "d" "A"; identity_line 4700 "d" "C"]
      "2H" default_tz _ 7200000000000
      [((Qc_of_Z 1000 * Qc_of_Z nanos_per_second)%Qc, (1, "A"%string));
       ((Qc_of_Z 4700 * Qc_of_Z nanos_per_second)%Qc, (1, "C"%string))]
      (-3600000000000) 1).
    + vm_compute; reflexivity.
    + vm_compute; reflexivity.
    + vm_compute; reflexivity.
    + repeat constructor; by apply exact_instant_second.
    + exists (identity_line 1000 "d" "A"),
        (Qc_of_Z 1000 * Qc_of_Z nanos_per_second)%Qc, "A"%string.
      split_and!; [by left | vm_compute; reflexivity | vm_compute; reflexivity].
  - simpl. right. by left.
Defined.

(** X11: when the local midnights of the zone are whole numbers of bins
    apart, gap filling only adds rows: every row of the mapping without gap
    filling is a row of the mapping with it, in the same zone. *)
Theorem fill_gaps_keeps_observed_rows `{Env} lines size tz s0 s1 width row :
  id_to_member_mapping lines size tz false = Ok s0 →
  id_to_member_mapping lines size tz true = Ok s1 →
  to_offset size = Ok width →
  grid_aligned tz width →
  row ∈ rows s0 → row ∈ rows s1 ∧ index_tz s1 = index_tz s0.
Proof.
  intros H0 H1 Hw Hal Hin.
  destruct (id_to_member_mapping_both _ _ _ _ _ _ H0 H1 Hw)
    as (recs & Hrecs & Hne & Hpos & Hrows0 & -> & -> & ->).
  split; [|done]. destruct row as [[b d] v].
  apply (filled_rows_keeps (Some tz) (stream_origin tz recs)); [done| | | |done].
  - rewrite Hrows0. apply idmap_rows_Sorted.
  - rewrite Hrows0. apply idmap_rows_on_grid.
  - by apply grid_aligned_index.
Qed.

Lemma fill_gaps_keeps_observed_rows_witness :
  ∃ s1, @id_to_member_mapping example_env
          [identity_line 1000 "d" "A"; identity_line 1200 "d" "C"]
          default_time_bins_size default_tz true = Ok s1 ∧
        ((1200000000000, 1), Some "C"%string) ∈ rows s1.
Proof.
  eexists. split; [vm_compute; reflexivity|].
  eapply (@fill_gaps_keeps_observed_rows example_env
    [identity_line 1000 "d" "A"; identity_line 1200 "d" "C"]
    default_time_bins_size default_tz _ _ 60000000000).
  - vm_compute; reflexivity.
  - vm_compute; reflexivity.
  - vm_compute; reflexivity.
  - apply example_env_grid_aligned. by exists 1440.
  - simpl. right. by left.
Defined.

(** X12: when the local midnights of the zone are whole numbers of bins
    apart, gap filling invents nothing: every row of the filled mapping
    belongs to a device the stream has, lies a whole number of bins after
    the first bin of that device and not after its last, and carries a
    wearer (never a missing value) that the device has in a bin at or before
    it. *)
Theorem fill_gaps_rows_in_range `{Env} lines size tz s0 s1 width b d v :
  id_to_member_mapping lines size tz false = Ok s0 →
  id_to_member_mapping lines size tz true = Ok s1 →
  to_offset size = Ok width →
  grid_aligned tz width →
  ((b, d), v) ∈ rows s1 →
  ∃ lo hi b0 m,
    device_range (rows s0) d lo hi ∧ lo ≤ b ≤ hi ∧ (width | b - lo) ∧
    v = Some m ∧ b0 ≤ b ∧ ((b0, d), Some m) ∈ rows s0.
Proof.
  intros H0 H1 Hw Hal Hin.
  destruct (id_to_member_mapping_both _ _ _ _ _ _ H0 H1 Hw)
    as (recs & Hrecs & Hne & Hpos & Hrows0 & Heq & _).
  rewrite Heq in Hin.
  assert (Hs : Sorted row_lt (rows s0)) by (rewrite Hrows0; apply idmap_rows_Sorted).
  assert (Hg : on_grid (stream_origin tz recs) width (rows s0))
    by (rewrite Hrows0; apply idmap_rows_on_grid).
  pose proof (grid_aligned_index _ _ _ Hal Hne) as Hidx.
  destruct (filled_rows_device _ _ _ _ _ _ Hin) as (lo & hi & Hrange).
  destruct (proj1 (elem_of_filled_rows_range _ _ _ _ Hpos Hs Hg Hidx _ _ _ _ _ Hrange) Hin)
    as (Hb & [j Hj] & b0 & Hb0 & Hin0 & _).
  pose proof Hrange as ([vlo [jlo Hjlo]%Hg]%elem_of_fst & _).
  pose proof Hin0 as Hin0'. rewrite Hrows0 in Hin0'.
  destruct (idmap_rows_value _ _ _ _ _ _ Hin0') as [[m ->] _].
  exists lo, hi, b0, m. split_and!; [done|lia|lia| |done..].
  exists (j - jlo). lia.
Qed.

Lemma fill_gaps_rows_in_range_witness :
  ∃ lo hi b0 m,
    device_range [((960000000000, 1), Some "A"%string);
                  ((1200000000000, 1), Some "C"%string)] 1 lo hi ∧
    lo ≤ 1080000000000 ≤ hi ∧ (60000000000 | 1080000000000 - lo) ∧
    Some "A"%string = Some m ∧ b0 ≤ 1080000000000 ∧
    ((b0, 1), Some m) ∈ [((960000000000, 1), Some "A"%string);
                         ((1200000000000, 1), Some "C"%string)].
Proof.
  apply (@fill_gaps_rows_in_range example_env
    [identity_line 1000 "d" "A"; identity_line 1200 "d" "C"]
    default_time_bins_size default_tz
    {| index_tz := Some default_tz;
       rows := [((960000000000, 1), Some "A"%string);
                ((1200000000000, 1), Some "C"%string)] |}
    {| index_tz := Some default_tz;
       rows := [((960000000000, 1), Some "A"%string);
                ((1020000000000, 1), Some "A"%string);
                ((1080000000000, 1), Some "A"%string);
                ((1140000000000, 1), Some "A"%string);
                ((1200000000000, 1), Some "C"%string)] |}
    60000000000 1080000000000 1 (Some "A"%string)).
  - vm_compute; reflexivity.
  - vm_compute; reflexivity.
  - vm_compute; reflexivity.
  - apply example_env_grid_aligned. by exists 1440.
  - simpl. do 2 right. by left.
Defined.

(** X13: after gap filling a device has one row for each bin from its first
    observed bin to its last: (last - first) / width + 1 rows. *)
Theorem fill_gaps_row_count `{Env} lines size tz s0 s1 width d lo hi :
  id_to_member_mapping lines size tz false = Ok s0 →
  id_to_member_mapping lines size tz true = Ok s1 →
  to_offset size = Ok width →
  device_range (rows s0) d lo hi →
  length (filter (λ r, r.1.2 = d) (rows s1)) = Z.to_nat ((hi - lo) `div` width + 1).
Proof.
  intros H0 H1 Hw Hrange.
  destruct (id_to_member_mapping_both _ _ _ _ _ _ H0 H1 Hw)
    as (recs & Hrecs & Hne & Hpos & Hrows0 & -> & _).
  rewrite <-(length_fmap (λ r : Z * Z * option string, r.1.1)).
  rewrite (filled_rows_bins _ _ _ Hpos _ _ _ Hrange).
  unfold date_range. rewrite length_fmap, length_seqZ. do 2 f_equal.
  (* the first and the last bin are a whole number of bins apart, so are the
     bins that hold them, wherever the bins of the device are counted from *)
  assert (Hg : on_grid (stream_origin tz recs) width (rows s0))
    by (rewrite Hrows0; apply idmap_rows_on_grid).
  destruct Hrange as ([vlo [jlo Hjlo]%Hg]%elem_of_fst & [vhi [jhi Hjhi]%Hg]%elem_of_fst & _).
  set (o := index_day_start (Some tz) lo).
  replace (hi - o) with (lo - o + (jhi - jlo) * width) by lia.
  rewrite Z.div_add by lia.
  replace (o + width * ((lo - o) `div` width + (jhi - jlo)) -
           (o + width * ((lo - o) `div` width))) with ((jhi - jlo) * width) by lia.
  replace (hi - lo) with ((jhi - jlo) * width) by lia. done.
Qed.

Lemma fill_gaps_row_count_witness :
  ∃ s1, @id_to_member_mapping example_env
          [identity_line 1000 "d" "A"; identity_line 1100 "dd" "Z";
           identity_line 1200 "d" "C"]
          default_time_bins_size default_tz true = Ok s1 ∧
        length (filter (λ r, r.1.2 = 1) (rows s1)) = 5%nat.
Proof.
  eexists. split; [vm_compute; reflexivity|].
  apply (@fill_gaps_row_count example_env
    [identity_line 1000 "d" "A"; identity_line 1100 "dd" "Z"; identity_line 1200 "d" "C"]
    default_time_bins_size default_tz
    {| index_tz := Some default_tz;
       rows := [((960000000000, 1), Some "A"%string);
                ((1080000000000, 2), Some "Z"%string);
                ((1200000000000, 1), Some "C"%string)] |}
    _ 60000000000 1 960000000000 1200000000000).
  - vm_compute; reflexivity.
  - vm_compute; reflexivity.
  - vm_compute; reflexivity.
  - split_and!.
    + simpl. by left.
    + simpl. do 2 right. by left.
    + intros b'. simpl. rewrite !elem_of_cons, elem_of_nil.
      intros [[= ->]|[[=]|[[= ->]|[]]]]; lia.
Defined.

(** X14: gap filling is idempotent: filling the gaps of a mapping that
    [id_to_member_mapping] returned with its gaps filled gives that mapping
    back. *)
Theorem fill_gaps_idempotent `{Env} lines size tz s1 :
  id_to_member_mapping lines size tz true = Ok s1 →
  _id_to_member_mapping_fill_gaps s1 size = Ok s1.
Proof.
  intros (recs & width & Hrecs & _ & Hw & Hne & ->)%id_to_member_mapping_Ok.
  pose proof (to_offset_pos _ _ Hw) as Hpos.
  rewrite (fill_gaps_Ok _ _ _ Hw); simpl.
  - do 2 f_equal. apply filled_rows_idem; [done|apply idmap_rows_Sorted].
  - apply filled_rows_nonempty; [done|]. rewrite idmap_rows_nil. by apply Hne.
Qed.

Lemma fill_gaps_idempotent_witness :
  ∃ s1, @id_to_member_mapping example_env
          [identity_line 1000 "d" "A"; identity_line 1100 "dd" "Z";
           identity_line 1200 "d" "C"]
          default_time_bins_size default_tz true = Ok s1 ∧
        @_id_to_member_mapping_fill_gaps example_env s1 default_time_bins_size = Ok s1.
Proof.
  eexists. split; [vm_compute; reflexivity|].
  apply (@fill_gaps_idempotent example_env
    [identity_line 1000 "d" "A"; identity_line 1100 "dd" "Z"; identity_line 1200 "d" "C"]
    default_time_bins_size default_tz).
  vm_compute; reflexivity.
Defined.

(** X15: when the local midnights of the zone are whole numbers of bins
    apart and no device has a gap between its first and its last observed
    bin, asking for gap filling changes nothing. *)
Theorem fill_gaps_noop_without_gaps `{Env} lines size tz s0 width :
  id_to_member_mapping lines size tz false = Ok s0 →
  to_offset size = Ok width →
  grid_aligned tz width →
  rows s0 ≠ [] →
  contiguous width (rows s0) →
  id_to_member_mapping lines size tz true = Ok s0.
Proof.
  intros (recs & w0 & Hrecs & Htz & Hw0 & _ & ->)%id_to_member_mapping_Ok Hw Hal Hne Hcont.
  assert (w0 = width) as -> by congruence. simpl in Hcont, Hne.
  rewrite idmap_rows_nil in Hne.
  apply id_to_member_mapping_Ok. exists recs, width. split_and!; [done..|].
  f_equal. symmetry.
  apply (filled_rows_contiguous_id (Some tz) (stream_origin tz recs));
    [by eapply to_offset_pos| | | |done].
  - apply idmap_rows_Sorted.
  - apply idmap_rows_on_grid.
  - by apply grid_aligned_index.
Qed.

(** Two records in neighbouring bins: no gap, so no change. *)
Lemma fill_gaps_noop_without_gaps_witness :
  ∃ s0, @id_to_member_mapping example_env
          [identity_line 1000 "d" "A"; identity_line 1030 "d" "B"]
          default_time_bins_size default_tz false = Ok s0 ∧
        @id_to_member_mapping example_env
          [identity_line 1000 "d" "A"; identity_line 1030 "d" "B"]
          default_time_bins_size default_tz true = Ok s0.
Proof.
  eexists. split; [vm_compute; reflexivity|].
  apply (@fill_gaps_noop_without_gaps example_env
    [identity_line 1000 "d" "A"; identity_line 1030 "d" "B"]
    default_time_bins_size default_tz _ 60000000000).
  - vm_compute; reflexivity.
  - vm_compute; reflexivity.
  - apply example_env_grid_aligned. by exists 1440.
  - done.
  - intros d lo hi b (Hlo & Hhi & _) Hb [j Hj]. simpl in *.
    rewrite !elem_of_cons, elem_of_nil in Hlo, Hhi.
    rewrite !elem_of_cons, elem_of_nil.
    destruct Hlo as [[= -> ->]|[[= -> ->]|[]]];
      destruct Hhi as [[= ->]|[[= ->]|[]]];
      (assert (j = 0 ∨ j = 1) as [-> | ->] by lia);
      (replace b with 960000000000 by lia) || (replace b with 1020000000000 by lia);
      auto.
Defined.

(** ** Bins *)

(** X16: [id_to_member_mapping] and [voltages] put every record in the bin
    that holds its instant, the bins being counted from the local midnight of
    the first day of the stream: for each record of a run that succeeds
    there is a row of its device (or wearer) for the bin of its instant,
    which starts at or before the instant and ends after it.  With gap
    filling this is so when the local midnights of the zone are whole numbers
    of bins apart.  The timestamps are whole counts of nanoseconds that
    binary64 holds as they are. *)
Theorem record_falls_in_its_bin `{Env} lines size tz width line t :
  to_offset size = Ok width →
  line ∈ lines →
  (∀ s fill_gaps recs d m,
     id_to_member_mapping lines size tz fill_gaps = Ok s →
     mapM id_record lines = Ok recs →
     exact_instants recs →
     (fill_gaps = true → grid_aligned tz width) →
     id_record line = Ok (t, (d, m)) →
     ∃ b v, b = bin_from (stream_origin tz recs) width t ∧
            ((b, d), v) ∈ rows s ∧
            (Qc_of_Z b ≤ t ∧ t < Qc_of_Z (b + width))%Qc) ∧
  (∀ s recs m x,
     voltages lines size tz = Ok s →
     mapM voltage_record lines = Ok recs →
     exact_instants recs →
     voltage_record line = Ok (t, (m, x)) →
     ∃ b v, b = bin_from (stream_origin tz recs) width t ∧
            ((b, m), v) ∈ rows s ∧
            (Qc_of_Z b ≤ t ∧ t < Qc_of_Z (b + width))%Qc).
Proof.
  intros Hw Hin. pose proof (to_offset_pos _ _ Hw) as Hpos. split.
  - intros s fill_gaps recs d m
      (recs' & w0 & Hrecs' & _ & Hw0 & Hne & ->)%id_to_member_mapping_Ok Hrecs _ Hal Hrec.
    assert (recs' = recs) as -> by congruence.
    assert (w0 = width) as -> by congruence. simpl.
    set (origin := stream_origin tz recs) in *.
    assert (Hr : (t, (d, m)) ∈ recs) by (apply (mapM_Ok_elem_of _ _ _ _ Hrecs); eauto).
    assert (Hkey : (bin_from origin width t, d) ∈ (idmap_rows origin width recs).*1).
    { apply idmap_rows_keys. eauto. }
    apply elem_of_fst in Hkey as [v Hkey].
    exists (bin_from origin width t), v. split_and!; [done| |by apply bin_from_bounds..].
    destruct fill_gaps; [|done].
    apply (filled_rows_keeps (Some tz) origin);
      [done|apply idmap_rows_Sorted|apply idmap_rows_on_grid| |done].
    apply grid_aligned_index; [by apply Hal | by apply Hne].
  - intros s recs m x (recs' & w0 & Hrecs' & _ & Hw0 & _ & ->)%voltages_Ok Hrecs _ Hrec.
    assert (recs' = recs) as -> by congruence.
    assert (w0 = width) as -> by congruence. simpl.
    set (origin := stream_origin tz recs) in *.
    assert (Hr : (t, (m, x)) ∈ recs) by (apply (mapM_Ok_elem_of _ _ _ _ Hrecs); eauto).
    eexists (bin_from origin width t), _.
    split_and!; [done| |by apply bin_from_bounds..].
    apply elem_of_aggregated. split; [|done].
    apply list_elem_of_fmap. exists ((bin_from origin width t, m), to_binary64 x).
    split; [done|].
    apply list_elem_of_fmap. exists (t, (m, to_binary64 x)). split; [done|].
    apply list_elem_of_fmap. by exists (t, (m, x)).
Qed.

(** With bins of one day, the record at second 1000 lies in the day that
    starts 19 hours before the epoch, at the local midnight. *)
Lemma record_falls_in_its_bin_witness :
  ∃ b v, b = -68400000000000 ∧
         ((b, 1), v) ∈ [((-68400000000000, 1), Some "A"%string)] ∧
         (Qc_of_Z b ≤ Qc_of_Z 1000 * Qc_of_Z nanos_per_second ∧
          Qc_of_Z 1000 * Qc_of_Z nanos_per_second < Qc_of_Z (b + 86400000000000))%Qc.
Proof.
  destruct (@record_falls_in_its_bin example_env
    [identity_line 1000 "d" "A"] "1D" default_tz 86400000000000
    (identity_line 1000 "d" "A") (Qc_of_Z 1000 * Qc_of_Z nanos_per_second)%Qc)
    as [Hid _].
  - vm_compute; reflexivity.
  - by left.
  - apply (Hid {| index_tz := Some default_tz;
                  rows := [((-68400000000000, 1), Some "A"%string)] |} true
               [((Qc_of_Z 1000 * Qc_of_Z nanos_per_second)%Qc, (1, "A"%string))]
               1 "A"%string).
    + vm_compute; reflexivity.
    + vm_compute; reflexivity.
    + repeat constructor; by apply exact_instant_second.
    + intros _. apply example_env_grid_aligned. by exists 1.
    + vm_compute; reflexivity.
Defined.

(** ** The identity mapping where it does what the specification says *)

(** X17: when several records fall under one (bin, device), the mapping has
    one row for that key, and it carries the wearer of the record that comes
    first in the stream: without gap filling always, with gap filling when
    the local midnights of the zone are whole numbers of bins apart.  The
    timestamps are whole counts of nanoseconds that binary64 holds as they
    are. *)
Theorem first_record_of_a_bin_wins `{Env}
    lines size tz fill_gaps s width recs pre line post t d m :
  id_to_member_mapping lines size tz fill_gaps = Ok s →
  to_offset size = Ok width →
  mapM id_record lines = Ok recs →
  exact_instants recs →
  (fill_gaps = true → grid_aligned tz width) →
  lines = pre ++ line :: post →
  id_record line = Ok (t, (d, m)) →
  (∀ line' t' m', line' ∈ pre → id_record line' = Ok (t', (d, m')) →
     bin_from (stream_origin tz recs) width t' ≠ bin_from (stream_origin tz recs) width t) →
  filter (λ r, r.1 = (bin_from (stream_origin tz recs) width t, d)) (rows s) =
    [((bin_from (stream_origin tz recs) width t, d), Some m)].
Proof.
  intros Hrun Hw Hrecs _ Hal Hlines Hline Hpre.
  pose proof (to_offset_pos _ _ Hw) as Hpos.
  assert (Hplain : ((bin_from (stream_origin tz recs) width t, d), Some m)
                   ∈ idmap_rows (stream_origin tz recs) width recs).
  { assert (Hrun0 : id_to_member_mapping lines size tz false =
      Ok {| index_tz := Some tz;
            rows := idmap_rows (stream_origin tz recs) width recs |}).
    { apply id_to_member_mapping_Ok in Hrun as (recs' & w' & ? & ? & ? & _ & _).
      apply id_to_member_mapping_Ok. exists recs, width. by split_and!. }
    by apply (id_to_member_mapping_first_row _ _ _ _ _ _ _ _ _ _ _ _ Hrun0 Hw Hrecs Hlines Hline). }
  apply id_to_member_mapping_Ok in Hrun as (recs' & w' & Hrecs' & _ & Hw' & Hne & ->).
  assert (recs' = recs) as -> by congruence.
  assert (w' = width) as -> by congruence. simpl.
  destruct fill_gaps.
  - apply filter_key_singleton; [by apply filled_rows_NoDup|].
    apply (filled_rows_keeps (Some tz) (stream_origin tz recs));
      [done|apply idmap_rows_Sorted|apply idmap_rows_on_grid| |done].
    apply grid_aligned_index; [by apply Hal | by apply Hne].
  - by apply filter_key_singleton; [apply idmap_rows_NoDup|].
Qed.

(** Two records of one device in one bin, wearers "A" then "B": the bin
    reports "A". *)
Lemma first_record_of_a_bin_wins_witness :
  ∃ s, @id_to_member_mapping example_env
         [identity_line 1000 "d" "A"; identity_line 1010 "d" "B"]
         default_time_bins_size default_tz true = Ok s ∧
       filter (λ r, r.1 = (960000000000, 1)) (rows s) = [((960000000000, 1), Some "A"%string)].
Proof.
  eexists. split; [vm_compute; reflexivity|].
  pose proof (@first_record_of_a_bin_wins example_env
    [identity_line 1000 "d" "A"; identity_line 1010 "d" "B"]
    default_time_bins_size default_tz true
    {| index_tz := Some default_tz;
       rows := [((960000000000, 1), Some "A"%string)] |} 60000000000
    [((Qc_of_Z 1000 * Qc_of_Z nanos_per_second)%Qc, (1, "A"%string));
     ((Qc_of_Z 1010 * Qc_of_Z nanos_per_second)%Qc, (1, "B"%string))]
    [] (identity_line 1000 "d" "A") [identity_line 1010 "d" "B"]
    (Qc_of_Z 1000 * Qc_of_Z nanos_per_second)%Qc 1 "A"%string) as Hfirst.
  apply Hfirst.
  - vm_compute; reflexivity.
  - vm_compute; reflexivity.
  - vm_compute; reflexivity.
  - repeat constructor; by apply exact_instant_second.
  - intros _. apply example_env_grid_aligned. by exists 1440.
  - reflexivity.
  - vm_compute; reflexivity.
  - intros ? ? ? Hin. by apply elem_of_nil in Hin.
Defined.

(** X18: when the local midnights of the zone are whole numbers of bins
    apart, gap filling gives every bin of a device from its first observed
    bin to its last exactly one row, and the row carries the wearer of the
    most recent observed bin at or before it: its own when the bin was
    observed, the latest earlier one when it was not. *)
Theorem fill_gaps_covers_aligned_bins `{Env} lines size tz s0 s1 width d lo hi b :
  id_to_member_mapping lines size tz false = Ok s0 →
  id_to_member_mapping lines size tz true = Ok s1 →
  to_offset size = Ok width →
  grid_aligned tz width →
  device_range (rows s0) d lo hi →
  lo ≤ b ≤ hi →
  (width | b - lo) →
  ∃ b0 m,
    b0 ≤ b ∧
    ((b0, d), Some m) ∈ rows s0 ∧
    (∀ b', b0 < b' ≤ b → (b', d) ∉ (rows s0).*1) ∧
    filter (λ r, r.1 = (b, d)) (rows s1) = [((b, d), Some m)].
Proof.
  intros H0 H1 Hw Hal Hrange Hb [j Hj].
  destruct (id_to_member_mapping_both _ _ _ _ _ _ H0 H1 Hw)
    as (recs & Hrecs & Hne & Hpos & Hrows0 & -> & _).
  assert (Hs : Sorted row_lt (rows s0)) by (rewrite Hrows0; apply idmap_rows_Sorted).
  assert (Hg : on_grid (stream_origin tz recs) width (rows s0))
    by (rewrite Hrows0; apply idmap_rows_on_grid).
  pose proof (grid_aligned_index _ _ _ Hal Hne) as Hidx.
  pose proof Hrange as ([vlo [jlo Hjlo]%Hg]%elem_of_fst & _).
  destruct (filled_rows_total (Some tz) (stream_origin tz recs) width (rows s0)
    Hpos Hg Hidx d lo hi b Hrange Hb) as [v Hin]; [exists (j + jlo); lia|].
  destruct (proj1 (elem_of_filled_rows_range _ _ _ _ Hpos Hs Hg Hidx _ _ _ _ _ Hrange) Hin)
    as (_ & _ & b0 & Hb0 & Hin0 & Hnone).
  pose proof Hin0 as Hin0'. rewrite Hrows0 in Hin0'.
  destruct (idmap_rows_value _ _ _ _ _ _ Hin0') as [[m ->] _].
  exists b0, m. split_and!; [done..|].
  by apply filter_key_singleton; [apply filled_rows_NoDup|].
Qed.

Lemma fill_gaps_covers_aligned_bins_witness :
  ∃ s0 s1,
    @id_to_member_mapping example_env
      [identity_line 1000 "d" "A"; identity_line 1010 "d" "B";
       identity_line 1200 "d" "C"; identity_line 1100 "dd" "Z"]
      default_time_bins_size default_tz false = Ok s0 ∧
    @id_to_member_mapping example_env
      [identity_line 1000 "d" "A"; identity_line 1010 "d" "B";
       identity_line 1200 "d" "C"; identity_line 1100 "dd" "Z"]
      default_time_bins_size default_tz true = Ok s1 ∧
    ∃ b0 m,
      b0 ≤ 1080000000000 ∧
      ((b0, 1), Some m) ∈ rows s0 ∧
      (∀ b', b0 < b' ≤ 1080000000000 → (b', 1) ∉ (rows s0).*1) ∧
      filter (λ r, r.1 = (1080000000000, 1)) (rows s1) =
        [((1080000000000, 1), Some m)].
Proof.
  do 2 eexists. split; [vm_compute; reflexivity|]. split; [vm_compute; reflexivity|].
  apply (@fill_gaps_covers_aligned_bins example_env
    [identity_line 1000 "d" "A"; identity_line 1010 "d" "B";
     identity_line 1200 "d" "C"; identity_line 1100 "dd" "Z"]
    default_time_bins_size default_tz _ _ 60000000000 1
    960000000000 1200000000000 1080000000000).
  - vm_compute; reflexivity.
  - vm_compute; reflexivity.
  - vm_compute; reflexivity.
  - apply example_env_grid_aligned. by exists 1440.
  - split_and!.
    + simpl. rewrite !elem_of_cons. tauto.
    + simpl. rewrite !elem_of_cons. tauto.
    + intros b'. simpl. rewrite !elem_of_cons, elem_of_nil.
      intros [[= ->]|[[=]|[[= ->]|[]]]]; lia.
  - lia.
  - exists 2. lia.
Defined.

(** X19: a device all of whose records fall in one bin has exactly one row
    in the mapping, with gap filling or without.  Without gap filling, and
    with it when the local midnights of the zone are whole numbers of bins
    apart, the row is that of the observed bin and carries the wearer of the
    first record of the device.  The timestamps are whole counts of
    nanoseconds that binary64 holds as they are. *)
Theorem single_bin_device_has_one_row `{Env}
    lines size tz fill_gaps s width recs pre line post t d m :
  id_to_member_mapping lines size tz fill_gaps = Ok s →
  to_offset size = Ok width →
  mapM id_record lines = Ok recs →
  exact_instants recs →
  lines = pre ++ line :: post →
  id_record line = Ok (t, (d, m)) →
  (∀ line' t' m', line' ∈ pre → id_record line' ≠ Ok (t', (d, m'))) →
  (∀ line' t' m', line' ∈ lines → id_record line' = Ok (t', (d, m')) →
     bin_from (stream_origin tz recs) width t' = bin_from (stream_origin tz recs) width t) →
  ∃ b v,
    filter (λ r, r.1.2 = d) (rows s) = [((b, d), v)] ∧
    (fill_gaps = false ∨ grid_aligned tz width →
     b = bin_from (stream_origin tz recs) width t ∧ v = Some m).
Proof.
  intros Hrun Hw Hrecs _ Hlines Hline Hpre Hbin.
  pose proof (to_offset_pos _ _ Hw) as Hpos.
  set (origin := stream_origin tz recs) in *.
  set (R := idmap_rows origin width recs).
  assert (Hplain : ∀ b v, ((b, d), v) ∈ R ↔ b = bin_from origin width t ∧ v = Some m).
  { assert (Hfirst : ((bin_from origin width t, d), Some m) ∈ R).
    { assert (Hrun0 : id_to_member_mapping lines size tz false =
        Ok {| index_tz := Some tz; rows := R |}).
      { apply id_to_member_mapping_Ok in Hrun as (recs' & w' & ? & ? & ? & _ & _).
        apply id_to_member_mapping_Ok. exists recs, width. by split_and!. }
      apply (id_to_member_mapping_first_row _ _ _ _ _ _ _ _ _ _ _ _
        Hrun0 Hw Hrecs Hlines Hline).
      intros line' t' m' Hin Hrec. by destruct (Hpre line' t' m'). }
    intros b v. split; [|by intros [-> ->]]. intros Hin.
    assert (b = bin_from origin width t) as ->.
    { assert (Hk : (b, d) ∈ R.*1) by (apply elem_of_fst; eauto).
      apply idmap_rows_keys in Hk as (t' & m' & Hr & <-).
      apply (mapM_Ok_elem_of _ _ _ _ Hrecs) in Hr as (line' & Hin' & Hrec').
      by eapply Hbin. }
    split; [done|]. by eapply (NoDup_fst_agree R); [apply idmap_rows_NoDup|..]. }
  apply id_to_member_mapping_Ok in Hrun as (recs' & w' & Hrecs' & _ & Hw' & Hne & ->).
  assert (recs' = recs) as -> by congruence.
  assert (w' = width) as -> by congruence. simpl. fold origin. fold R.
  destruct fill_gaps.
  - assert (Hrange : device_range R d (bin_from origin width t) (bin_from origin width t)).
    { assert (Hk : (bin_from origin width t, d) ∈ R.*1)
        by (apply elem_of_fst; exists (Some m); by apply Hplain).
      split_and!; [done..|]. intros b [v [-> _]%Hplain]%elem_of_fst. lia. }
    set (o := index_day_start (Some tz) (bin_from origin width t)).
    set (b1 := o + width * ((bin_from origin width t - o) `div` width)).
    set (g := values_of d ((λ r : Z * Z * option string, (r.1.2, (r.1.1, r.2))) <$> R)).
    assert (Hrows : ∀ b v,
      ((b, d), v) ∈ filled_rows (Some tz) width R ↔ b = b1 ∧ v = asof g b1).
    { intros b v.
      rewrite (elem_of_filled_rows_device _ _ _ Hpos _ _ _ _ _ Hrange).
      fold o b1 g. split.
      - intros ([??] & _ & ->). by assert (b = b1) as -> by lia.
      - intros [-> ->]. split_and!; [lia|lia| |done].
        unfold b1. by eexists; rewrite Z.add_simpl_l, Z.mul_comm. }
    exists b1, (asof g b1). split.
    + apply filter_unique.
      * eapply NoDup_fmap_1 with (f := fst). by apply filled_rows_NoDup.
      * by apply Hrows.
      * done.
      * intros [[b d'] v] Hin Hd. simpl in Hd. subst d'.
        by apply Hrows in Hin as [-> ->].
    + intros [?|Hal]; [done|].
      assert (b1 = bin_from origin width t) as Hb1.
      { apply floor_to_on_grid; [done|].
        destruct (grid_aligned_index _ _ _ Hal (Hne eq_refl) (bin_from origin width t))
          as [jo Hjo].
        destruct (bin_from_grid origin width t) as [j Hj].
        fold o in Hjo. exists (j - jo). lia. }
      split; [done|]. rewrite Hb1.
      apply asof_here; [apply group_sorted, idmap_rows_Sorted|].
      apply elem_of_by_id. by apply Hplain.
  - exists (bin_from origin width t), (Some m). split; [|done].
    apply filter_unique.
    + eapply NoDup_fmap_1 with (f := fst). apply idmap_rows_NoDup.
    + by apply Hplain.
    + done.
    + intros [[b d'] v] Hin Hd. simpl in Hd. subst d'.
      by apply Hplain in Hin as [-> ->].
Qed.

(** A device seen twice in one bin, with a record of another device in
    between: one row, the first wearer, with gap filling. *)
Lemma single_bin_device_has_one_row_witness :
  ∃ s, @id_to_member_mapping example_env
         [identity_line 1000 "d" "A"; identity_line 1100 "dd" "Z";
          identity_line 1010 "d" "B"]
         default_time_bins_size default_tz true = Ok s ∧
       ∃ b v, filter (λ r, r.1.2 = 1) (rows s) = [((b, 1), v)] ∧
              (true = false ∨ @grid_aligned example_env default_tz 60000000000 →
               b = 960000000000 ∧ v = Some "A"%string).
Proof.
  eexists. split; [vm_compute; reflexivity|].
  pose proof (@single_bin_device_has_one_row example_env
    [identity_line 1000 "d" "A"; identity_line 1100 "dd" "Z"; identity_line 1010 "d" "B"]
    default_time_bins_size default_tz true
    {| index_tz := Some default_tz;
       rows := [((960000000000, 1), Some "A"%string);
                ((1080000000000, 2), Some "Z"%string)] |} 60000000000
    [((Qc_of_Z 1000 * Qc_of_Z nanos_per_second)%Qc, (1, "A"%string));
     ((Qc_of_Z 1100 * Qc_of_Z nanos_per_second)%Qc, (2, "Z"%string));
     ((Qc_of_Z 1010 * Qc_of_Z nanos_per_second)%Qc, (1, "B"%string))]
    [] (identity_line 1000 "d" "A")
    [identity_line 1100 "dd" "Z"; identity_line 1010 "d" "B"]
    (Qc_of_Z 1000 * Qc_of_Z nanos_per_second)%Qc 1 "A"%string) as Hone.
  apply Hone.
  - vm_compute; reflexivity.
  - vm_compute; reflexivity.
  - vm_compute; reflexivity.
  - repeat constructor; by apply exact_instant_second.
  - reflexivity.
  - vm_compute; reflexivity.
  - intros ? ? ? Hin. by apply elem_of_nil in Hin.
  - intros line' t' m'. rewrite !elem_of_cons, elem_of_nil.
    intros [->|[->|[->|[]]]] Hrec; vm_compute in Hrec;
      first [ discriminate Hrec
            | injection Hrec; intros; subst; vm_compute; reflexivity ].
Defined.
